(** * FundingRate crawler: a shallow embedding of [src/index.ts]

    The crawler keeps, per (exchange, pair), one JSON file holding the
    funding-rate history, and on every run fetches what is new, merges it
    with the stored history and writes the file back.

    Conventions of the embedding:
    - a JavaScript number that holds a time is an integer number of
      milliseconds ([Z]) or [NaN] (type [number]); fractional values are not
      modelled. The [fundingTime] field of a record is an integer, so a
      reply is taken after the conversion of its items, and items whose
      time does not convert to an integer are outside the embedding;
    - [fundingRate] is an IEEE-754 double, as in the source, or [null]: what
      a NaN or an infinite rate has become once written and read back;
    - every [Axios.get] takes the next entry of a scripted list of replies
      (the simulated exchange); a function that awaits a reply when the
      script is empty is [Pending];
    - console output, requests and timer delays are recorded as events, in
      program order; the files written are read off the final [World];
    - the file store lists the directories and the regular files below the
      working directory under their normalised paths; [mkdirp.sync] is taken
      to succeed (a regular file in the place of an ancestor of the market
      directory, on which it throws, is outside the embedding). *)

From Stdlib Require Import ZArith Floats Ascii.
From stdpp Require Import gmap strings list sorting.

#[local] Set Warnings "-clear-no-such-hyp".

Local Open Scope Z_scope.

(** ** Data model (lines 14-21) *)

Record FundingRate : Type := mkFundingRate {
  exchange : string;
  pair : string;
  rawPair : string;
  fundingRate : option float;   (* [None] is [null] *)
  fundingTime : Z;
  fundingTimeStr : string;
}.

(** The [Market] descriptor of the [crypto-markets] package, with the fields
    the crawler reads. *)
Record Market : Type := mkMarket {
  market_id : string;
  market_pair : string;
  market_baseId : string;
  market_exchange : string;
  market_type : string;
}.

(** ** JavaScript numbers holding times, and [Date] *)

Inductive number : Type :=
| Num (z : Z)
| NaN.

Definition num_add (a b : number) : number :=
  match a, b with
  | Num x, Num y => Num (x + y)
  | _, _ => NaN
  end.

Definition num_sub (a b : number) : number :=
  match a, b with
  | Num x, Num y => Num (x - y)
  | _, _ => NaN
  end.

(** [a >= b] and [a > b]: false as soon as one side is [NaN]. *)
Definition num_ge (a b : number) : bool :=
  match a, b with
  | Num x, Num y => bool_decide (y ≤ x)
  | _, _ => false
  end.

Definition num_gt (a b : number) : bool :=
  match a, b with
  | Num x, Num y => bool_decide (y < x)
  | _, _ => false
  end.

(** ECMAScript TimeClip: a [Date] holds a time value of magnitude at most
    8.64e15 ms, and is invalid ([NaN]) otherwise. *)
Definition MAX_TIME : Z := 8640000000000000.

Definition TimeClip (t : number) : number :=
  match t with
  | Num z => if bool_decide (Z.abs z ≤ MAX_TIME) then Num z else NaN
  | NaN => NaN
  end.

(** [new Date(t).getTime()] *)
Definition Date_getTime (t : number) : number := TimeClip t.

(** [new Date(x.fundingTime).getTime()], the key every crawler sorts and
    filters by. *)
Definition timeOf (x : FundingRate) : number := Date_getTime (Num (fundingTime x)).

Definition valid_time (x : FundingRate) : Prop := Z.abs (fundingTime x) ≤ MAX_TIME.

(** ** Sorting

    [Array.prototype.sort] and lodash's [sortBy] are stable.  [stable_sort gt]
    inserts every element behind the elements that are not greater, so equal
    elements keep their order. *)
Section StableSort.
Context {A : Type} (gt : A → A → bool).

Fixpoint sort_insert (x : A) (l : list A) : list A :=
  match l with
  | [] => [x]
  | y :: l' => if gt x y then y :: sort_insert x l' else x :: y :: l'
  end.

Fixpoint stable_sort (l : list A) : list A :=
  match l with
  | [] => []
  | x :: l' => sort_insert x (stable_sort l')
  end.
End StableSort.

(** [arr.sort(compareFn)]: [x] goes behind [y] when [compareFn(x, y) > 0]; a
    [NaN] from the comparator counts as [+0]. *)
Definition Array_sort {A : Type} (compareFn : A → A → number) : list A → list A :=
  stable_sort (λ x y, num_gt (compareFn x y) (Num 0)).

(** The comparator of lines 92, 141, 198 and 253. *)
Definition byTime (x y : FundingRate) : number := num_sub (timeOf x) (timeOf y).

(** ** lodash *)

(** [_.uniqBy(array, 'fundingTime')]: walks the array from the left and keeps
    an element when its key was not seen before. *)
Fixpoint baseUniq {A : Type} (iteratee : A → Z) (seen : list Z) (array : list A) : list A :=
  match array with
  | [] => []
  | x :: rest =>
      if bool_decide (iteratee x ∈ seen) then baseUniq iteratee seen rest
      else x :: baseUniq iteratee (iteratee x :: seen) rest
  end.

Definition uniqBy {A : Type} (array : list A) (iteratee : A → Z) : list A :=
  baseUniq iteratee [] array.

(** [_.sortBy(collection, 'fundingTime')]: stable, ascending by key. *)
Definition gt_by {A : Type} (iteratee : A → Z) (x y : A) : bool :=
  bool_decide (iteratee y < iteratee x).

Definition sortBy {A : Type} (collection : list A) (iteratee : A → Z) : list A :=
  stable_sort (gt_by iteratee) collection.

(** ** Merge step (lines 321-324) *)
Definition merge (fundingRatesHistory fundingRates : list FundingRate) : list FundingRate :=
  sortBy (uniqBy (fundingRatesHistory ++ fundingRates) fundingTime) fundingTime.

(** ** Errors, promises and the simulated world *)

(** Operands of [assert.strictEqual]. *)
Inductive value : Type :=
| VNum (z : Z)
| VStr (s : string).

(** The [Error] instances the program can meet. *)
Inductive Error : Type :=
| AssertionError (actual expected : value)
| RequestError (message : string)
| SyntaxError (text : string)
| TypeError (message : string)
| RangeError (message : string)
| SystemError (code : string) (path : string)
| PlainError (message : string).

(** Synchronous code: a value or a thrown error. *)
Inductive result (A : Type) : Type :=
| Ok (a : A)
| Throw (e : Error).
Arguments Ok {A} a.
Arguments Throw {A} e.

#[global] Instance result_ret : MRet result := λ A a, Ok a.
#[global] Instance result_bind : MBind result := λ A B k r,
  match r with
  | Ok a => k a
  | Throw e => Throw e
  end.

Definition assert_strictEqual (actual expected : value) (same : bool) : result unit :=
  if same then Ok tt else Throw (AssertionError actual expected).

Definition assert_str (actual expected : string) : result unit :=
  assert_strictEqual (VStr actual) (VStr expected) (String.eqb actual expected).

Definition assert_num (actual expected : Z) : result unit :=
  assert_strictEqual (VNum actual) (VNum expected) (bool_decide (actual = expected)).

(** State of the promise an [async] function returns. *)
Inductive promise (A : Type) : Type :=
| Fulfilled (a : A)
| Rejected (e : Error)
| Pending.
Arguments Fulfilled {A} a.
Arguments Rejected {A} e.
Arguments Pending {A}.

(** One item of a reply body after the crawler's field conversions
    ([parseFloat], [new Date(..).getTime()], the ISO string). *)
Record entry : Type := mkEntry {
  entry_rate : float;
  entry_time : Z;
  entry_timeStr : string;
}.

Record response (T : Type) : Type := mkResponse {
  status : Z;
  statusText : string;
  data_status : string;   (* [response.data.status], read by the Huobi crawler *)
  data : T;
}.
Arguments mkResponse {T}.
Arguments status {T}.
Arguments statusText {T}.
Arguments data_status {T}.
Arguments data {T}.

(** What [await Axios.get(url)] does: the promise resolves with a response or
    rejects. *)
Inductive axios_result (T : Type) : Type :=
| Resolve (r : response T)
| Reject (e : Error).
Arguments Resolve {T} r.
Arguments Reject {T} e.

Inductive request : Type :=
| BinanceFundingRate (symbol : string) (startTime : number)  (* limit=1000 *)
| HuobiHistoricalFundingRate (contract_code : string) (page_index : Z)  (* page_size=50 *)
| BitMEXFunding (symbol : string) (startTime : Z)  (* count=500; the time as ISO string *)
| OKExHistoricalFundingRate (instrument : string)
| OKExFundingTime (instrument : string).

Inductive printed : Type :=
| Text (s : string)
| ErrorObject (e : Error)
| MessageOf (e : Error).

Inductive event : Type :=
| Get (req : request)
| ConsoleError (p : printed)
| SetTimeout (ms : Z).

(** Stored file content, by what [JSON.parse] makes of it. *)
Inductive blob : Type :=
| JsonText (rates : list FundingRate)
| Garbage (text : string).

(** A number written by [JSON.stringify] and read by [JSON.parse]: NaN and
    the infinities are written as [null], -0 as [0], any other double in a
    form that reads back as itself. *)
Definition JSON_number (x : float) : option float :=
  if PrimFloat.is_nan x || PrimFloat.is_infinity x then None
  else if PrimFloat.is_zero x then Some PrimFloat.zero
  else Some x.

(** A record as it reads back from the text [JSON.stringify] writes for
    it. *)
Definition JSON_value (x : FundingRate) : FundingRate :=
  mkFundingRate (exchange x) (pair x) (rawPair x) (fundingRate x ≫= JSON_number)
    (fundingTime x) (fundingTimeStr x).

(** The content of a file holding [JSON.stringify(rates, null, 2)] and a
    newline. *)
Definition JSON_stringify (rates : list FundingRate) : blob :=
  JsonText (JSON_value <$> rates).

(** The file store and the scripted replies: [pages] answers the requests
    for arrays of history, [currents] the OKEx current-rate requests. *)
Record World : Type := mkWorld {
  dirs : gset string;
  files : gmap string blob;
  pages : list (axios_result (list entry));
  currents : list (axios_result entry);
}.

Definition set_pages (w : World) (p : list (axios_result (list entry))) : World :=
  mkWorld (dirs w) (files w) p (currents w).

Definition set_currents (w : World) (c : list (axios_result entry)) : World :=
  mkWorld (dirs w) (files w) (pages w) c.

Record run (A : Type) : Type := Run {
  settled : promise A;
  world : World;
  events : list event;
}.
Arguments Run {A}.
Arguments settled {A}.
Arguments world {A}.
Arguments events {A}.

(** Events that happened before [r] started. *)
Definition after {A : Type} (evs : list event) (r : run A) : run A :=
  Run (settled r) (world r) (evs ++ events r).

(** A one-shot fetch: it throws before any request, or issues one request and
    turns the reply into its result. *)
Inductive oneshot (T A : Type) : Type :=
| Fail (e : Error)
| Await (req : request) (k : axios_result T → result A).
Arguments Fail {T A} e.
Arguments Await {T A} req k.

Definition fetch {T A : Type} (precondition : result unit) (req : request)
    (k : response T → result A) : oneshot T A :=
  match precondition with
  | Throw e => Fail e
  | Ok _ =>
      Await req (λ reply,
        match reply with
        | Reject e => Throw e
        | Resolve r => k r
        end)
  end.

(** Run a one-shot fetch against the scripted history replies. *)
Definition perform {A : Type} (o : oneshot (list entry) A) (w : World) : run A :=
  match o with
  | Fail e => Run (Rejected e) w []
  | Await req k =>
      match pages w with
      | [] => Run Pending w [Get req]
      | reply :: script =>
          match k reply with
          | Ok a => Run (Fulfilled a) (set_pages w script) [Get req]
          | Throw e => Run (Rejected e) (set_pages w script) [Get req]
          end
      end
  end.

(** The same against the scripted OKEx current-rate replies. *)
Definition perform_current {A : Type} (o : oneshot entry A) (w : World) : run A :=
  match o with
  | Fail e => Run (Rejected e) w []
  | Await req k =>
      match currents w with
      | [] => Run Pending w [Get req]
      | reply :: script =>
          match k reply with
          | Ok a => Run (Fulfilled a) (set_currents w script) [Get req]
          | Throw e => Run (Rejected e) (set_currents w script) [Get req]
          end
      end
  end.

(** The object literal every crawler builds from one item of a reply. *)
Definition toFundingRate (exchange : string) (market : Market) (obj : entry) : FundingRate :=
  mkFundingRate exchange (market_pair market) (market_id market)
    (Some (entry_rate obj)) (entry_time obj) (entry_timeStr obj).

(** [new Date(t).toISOString()] throws on an invalid date; a valid one is
    identified with its time value. *)
Definition Date_toISOString (t : number) : result Z :=
  match TimeClip t with
  | Num z => Ok z
  | NaN => Throw (RangeError "Invalid time value")
  end.

(** ** OKEx (lines 23-93) *)

Definition crawlOKExFundingRateCurrent (market : Market) : oneshot entry FundingRate :=
  fetch (assert_str (market_type market) "Swap")
    (OKExFundingTime (market_id market))
    (λ response,
       assert_num (status response) 200;;
       mret (toFundingRate "OKEx" market (data response))).

Definition crawlOKExFundingRateHistory (market : Market)
    : oneshot (list entry) (list FundingRate) :=
  fetch (assert_str (market_type market) "Swap")
    (OKExHistoricalFundingRate (market_id market))
    (λ response,
       assert_num (status response) 200;;
       mret (toFundingRate "OKEx" market <$> data response)).

Definition crawlOKExFundingRate (market : Market) (startTime : number) (w : World)
    : run (list FundingRate) :=
  let h := perform (crawlOKExFundingRateHistory market) w in
  match settled h with
  | Rejected e => Run (Rejected e) (world h) (events h)
  | Pending => Run Pending (world h) (events h)
  | Fulfilled fundingRateHistory =>
      let c := perform_current (crawlOKExFundingRateCurrent market) (world h) in
      match settled c with
      | Rejected e => Run (Rejected e) (world c) (events h ++ events c)
      | Pending => Run Pending (world c) (events h ++ events c)
      | Fulfilled fundingRateCurrent =>
          let result := fundingRateHistory ++ [fundingRateCurrent] in
          Run (Fulfilled
                 (Array_sort byTime
                    (List.filter (λ x, num_ge (timeOf x) startTime) result)))
              (world c) (events h ++ events c)
      end
  end.

(** ** Binance (lines 95-143) *)

Definition crawlBinanceFundingRateOneshot (market : Market) (startTime : number)
    : oneshot (list entry) (list FundingRate) :=
  fetch (assert_str (market_type market) "Swap")
    (BinanceFundingRate (market_id market) startTime)
    (λ response,
       assert_num (status response) 200;;
       mret (toFundingRate "Binance" market <$> data response)).

(** The [do ... while] loop, one iteration per scripted reply. [result] and
    [startTime] are the loop's variables. *)
Fixpoint crawlBinanceFundingRate_loop (market : Market) (startTime : number)
    (result : list FundingRate) (w : World)
    (script : list (axios_result (list entry))) : run (list FundingRate) :=
  match crawlBinanceFundingRateOneshot market startTime with
  | Fail e => Run (Rejected e) (set_pages w script) []
  | Await req k =>
      match script with
      | [] => Run Pending (set_pages w []) [Get req]
      | reply :: script' =>
          match k reply with
          | Throw e => Run (Rejected e) (set_pages w script') [Get req]
          | Ok fundingRates =>
              (* [if (fundingRates.length > 0)], with the last element *)
              let '(result', startTime') :=
                match last fundingRates with
                | Some x => (result ++ fundingRates, num_add (timeOf x) (Num 1000))
                | None => (result, startTime)
                end in
              if bool_decide (1000 ≤ Z.of_nat (length fundingRates))
              then after [Get req]
                     (crawlBinanceFundingRate_loop market startTime' result' w script')
              else Run (Fulfilled (Array_sort byTime result')) (set_pages w script')
                     [Get req]
          end
      end
  end.

Definition crawlBinanceFundingRate (market : Market) (startTime : number) (w : World)
    : run (list FundingRate) :=
  crawlBinanceFundingRate_loop market startTime [] w (pages w).

(** ** Huobi (lines 145-200) *)

Definition crawlHuobiFundingRateOneshot (market : Market) (pageIndex : Z)
    : oneshot (list entry) (list FundingRate) :=
  fetch (assert_str (market_type market) "Swap")
    (HuobiHistoricalFundingRate (market_id market) pageIndex)
    (λ response,
       assert_num (status response) 200;;
       assert_str (data_status response) "ok";;
       mret (toFundingRate "Huobi" market <$> data response)).

Fixpoint crawlHuobiFundingRate_loop (market : Market) (lastFundingTime : number)
    (result : list FundingRate) (pageIndex : Z) (w : World)
    (script : list (axios_result (list entry))) : run (list FundingRate) :=
  match crawlHuobiFundingRateOneshot market pageIndex with
  | Fail e => Run (Rejected e) (set_pages w script) []
  | Await req k =>
      match script with
      | [] => Run Pending (set_pages w []) [Get req]
      | reply :: script' =>
          match k reply with
          | Throw e => Run (Rejected e) (set_pages w script') [Get req]
          | Ok fetched =>
              let pageIndex' := pageIndex + 1 in
              let fundingRates :=
                List.filter (λ rate, num_gt (timeOf rate) lastFundingTime) fetched in
              let result' :=
                if bool_decide (0 < Z.of_nat (length fundingRates))
                then result ++ fundingRates else result in
              if bool_decide (50 ≤ Z.of_nat (length fundingRates))
              then after [Get req]
                     (crawlHuobiFundingRate_loop market lastFundingTime result'
                        pageIndex' w script')
              else Run (Fulfilled (Array_sort byTime result')) (set_pages w script')
                     [Get req]
          end
      end
  end.

Definition crawlHuobiFundingRate (market : Market) (lastFundingTime : number) (w : World)
    : run (list FundingRate) :=
  crawlHuobiFundingRate_loop market lastFundingTime [] 1 w (pages w).

(** ** BitMEX (lines 202-255) *)

Definition crawlBitMEXFundingRateOneshot (market : Market) (startTime : number)
    : oneshot (list entry) (list FundingRate) :=
  match (assert_str (market_type market) "Swap";; Date_toISOString startTime) with
  | Throw e => Fail e
  | Ok iso =>
      fetch (Ok tt) (BitMEXFunding (market_baseId market) iso)
        (λ response,
           assert_num (status response) 200;;
           assert_str (statusText response) "OK";;
           mret (toFundingRate "BitMEX" market <$> data response))
  end.

Fixpoint crawlBitMEXFundingRate_loop (market : Market) (startTime : number)
    (result : list FundingRate) (w : World)
    (script : list (axios_result (list entry))) : run (list FundingRate) :=
  match crawlBitMEXFundingRateOneshot market startTime with
  | Fail e => Run (Rejected e) (set_pages w script) []
  | Await req k =>
      match script with
      | [] => Run Pending (set_pages w []) [Get req]
      | reply :: script' =>
          match k reply with
          | Throw e => Run (Rejected e) (set_pages w script') [Get req]
          | Ok fundingRates =>
              let '(result', startTime') :=
                match last fundingRates with
                | Some x => (result ++ fundingRates, num_add (timeOf x) (Num 3600000))
                | None => (result, startTime)
                end in
              if bool_decide (500 ≤ Z.of_nat (length fundingRates))
              then after [Get req]
                     (crawlBitMEXFundingRate_loop market startTime' result' w script')
              else Run (Fulfilled (Array_sort byTime result')) (set_pages w script')
                     [Get req]
          end
      end
  end.

Definition crawlBitMEXFundingRate (market : Market) (startTime : number) (w : World)
    : run (list FundingRate) :=
  crawlBitMEXFundingRate_loop market startTime [] w (pages w).

(** ** One market: checkpoint, retry, merge, persist (lines 257-327) *)

Definition FUNDING_RATES_DIR : string := "data".

(** *** Paths

    Node's POSIX [path.join]: the non-empty arguments joined by [/], then
    normalised ([.] and empty segments dropped, [..] resolved against the
    segment before it, a trailing [/] kept). *)

(** The pieces of [s] between its slashes; [cur] is the piece being read. *)
Fixpoint split_slash (cur : string) (s : string) : list string :=
  match s with
  | EmptyString => [cur]
  | String c s' =>
      if Ascii.eqb c "/"%char then cur :: split_slash "" s'
      else split_slash (cur +:+ String c "") s'
  end.

Definition isAbsolute (p : string) : bool :=
  match p with
  | String c _ => Ascii.eqb c "/"%char
  | EmptyString => false
  end.

Definition ends_with_slash (p : string) : bool :=
  String.eqb (List.last (split_slash "" p) "") "".

(** One segment of [normalizeString]; [res] holds the segments kept so far,
    the last one first. *)
Definition normalize_step (allowAboveRoot : bool) (res : list string) (segment : string)
    : list string :=
  if String.eqb segment "" || String.eqb segment "." then res
  else if String.eqb segment ".." then
    match res with
    | last :: res' =>
        if String.eqb last ".." then (if allowAboveRoot then ".." :: res else res)
        else res'
    | [] => if allowAboveRoot then [".."] else []
    end
  else segment :: res.

Definition normalize (p : string) : string :=
  if String.eqb p "" then "."
  else
    let path :=
      String.concat "/"
        (rev (fold_left (normalize_step (negb (isAbsolute p))) (split_slash "" p) [])) in
    if String.eqb path "" then
      if isAbsolute p then "/" else if ends_with_slash p then "./" else "."
    else
      (if isAbsolute p then "/" else "") +:+ path
      +:+ (if ends_with_slash p then "/" else "").

Definition path_join (segments : list string) : string :=
  let joined :=
    String.concat "/" (List.filter (λ arg, negb (String.eqb arg "")) segments) in
  if String.eqb joined "" then "." else normalize joined.

(** *** The file store *)

(** The names a path walks through. *)
Definition components (p : string) : list string :=
  List.filter (λ c, negb (String.eqb c "" || String.eqb c ".")) (split_slash "" p).

Definition of_components (absolute : bool) (cs : list string) : string :=
  if absolute then "/" +:+ String.concat "/" cs
  else match cs with
       | [] => "."
       | _ => String.concat "/" cs
       end.

(** The path without [.], doubled or trailing slashes: the key of the
    store. *)
Definition canon (p : string) : string := of_components (isAbsolute p) (components p).

(** The directory a path lies in. *)
Definition dirname (p : string) : string :=
  of_components (isAbsolute p) (removelast (components p)).

(** The directories between the working directory (or the root) and the
    path, the nearest last. *)
Definition ancestors (p : string) : list string :=
  (λ k, of_components (isAbsolute p) (take k (components p)))
    <$> seq 1 (length (components p) - 1).

(** The working directory, the root and the directories above the working
    directory always exist. *)
Definition above (p : string) : bool := forallb (String.eqb "..") (components p).

Definition isDirectory (w : World) (p : string) : bool :=
  above p || bool_decide (canon p ∈ dirs w).

Definition existsSync (w : World) (p : string) : bool :=
  isDirectory w p || bool_decide (is_Some (files w !! p)).

(** [mkdirp.sync]: the directory and its missing ancestors. *)
Definition mkdirp_sync (w : World) (dir : string) : World :=
  mkWorld (list_to_set (canon dir :: ancestors dir) ∪ dirs w) (files w) (pages w)
    (currents w).

(** A file can be written where there is no directory and the directory it
    lies in exists. *)
Definition writable (w : World) (file : string) : bool :=
  negb (ends_with_slash file) && negb (isDirectory w file)
  && isDirectory w (dirname file).

(** [fs.writeFileSync]. It throws [EISDIR] on a directory, [ENOTDIR] when a
    regular file stands on the way, [ENOENT] when a directory on the way is
    missing. *)
Definition writeFileSync (w : World) (file : string) (content : blob) : result World :=
  if writable w file
  then Ok (mkWorld (dirs w) (<[file := content]> (files w)) (pages w) (currents w))
  else
    Throw (SystemError
             (if ends_with_slash file || isDirectory w file then "EISDIR"
              else if existsb (λ a, bool_decide (is_Some (files w !! a))) (ancestors file)
                   then "ENOTDIR" else "ENOENT")
             file).

(** [JSON.parse(fs.readFileSync(file, 'utf8'))] *)
Definition parseFile (w : World) (file : string) : result (list FundingRate) :=
  match files w !! file with
  | Some (JsonText rates) => Ok rates
  | Some (Garbage text) => Throw (SyntaxError text)
  | None => Throw (PlainError "EISDIR: illegal operation on a directory, read")
  end.

(** [arr[i]] for an integer [i]: [undefined] outside the array. *)
Definition Array_get {A : Type} (arr : list A) (i : Z) : option A :=
  if bool_decide (0 ≤ i) then arr !! Z.to_nat i else None.

(** The resume timestamp (lines 276-284). Reading [fundingTime] of
    [undefined] throws a [TypeError]. *)
Definition startTime (market : Market) (fundingRatesHistory : list FundingRate)
    : result number :=
  if bool_decide (Z.of_nat (length fundingRatesHistory) ≤ 0)
  then Ok (Num 1568102400000)
  else
    match Array_get fundingRatesHistory
            (Z.of_nat (length fundingRatesHistory)
             - (if String.eqb (market_exchange market) "OKEx" then 2 else 1)) with
    | None => Throw (TypeError "Cannot read property 'fundingTime' of undefined")
    | Some x => Ok (num_add (Date_getTime (Num (fundingTime x))) (Num 1000))
    end.

Definition crawlFunc_t : Type := Market → number → World → run (list FundingRate).

(** The [switch] of lines 288-303. *)
Definition crawlFunc (exchange : string) : result crawlFunc_t :=
  if String.eqb exchange "Binance" then Ok crawlBinanceFundingRate
  else if String.eqb exchange "BitMEX" then Ok crawlBitMEXFundingRate
  else if String.eqb exchange "Huobi" then Ok crawlHuobiFundingRate
  else if String.eqb exchange "OKEx" then Ok crawlOKExFundingRate
  else Throw (PlainError ("Unknown exchange " +:+ exchange)).

(** The [while (!succeeded)] loop of lines 305-319; [fuel] bounds the number
    of attempts looked at, and the loop is still [Pending] beyond it. *)
Fixpoint retry (fuel : nat) (crawl : crawlFunc_t) (market : Market) (start : number)
    (w : World) : run (list FundingRate) :=
  match fuel with
  | O => Run Pending w []
  | S fuel' =>
      let tmp := crawl market start w in
      match settled tmp with
      | Rejected error =>
          after (events tmp ++
                 [ConsoleError (Text (market_exchange market +:+ "-" +:+ market_pair market));
                  ConsoleError (MessageOf error);
                  SetTimeout 5000])
            (retry fuel' crawl market start (world tmp))
      | Fulfilled fundingRates => Run (Fulfilled fundingRates) (world tmp) (events tmp)
      | Pending => Run Pending (world tmp) (events tmp)
      end
  end.

Definition marketDir (market : Market) : string :=
  path_join [FUNDING_RATES_DIR; market_exchange market].

Definition fundingRatesFile (market : Market) : string :=
  path_join [FUNDING_RATES_DIR; market_exchange market; market_pair market +:+ ".json"].

(** Lines 261-263. *)
Definition ensureDir (market : Market) (w : World) : World :=
  if existsSync w (marketDir market) then w else mkdirp_sync w (marketDir market).

(** Lines 265-272: a first parse, whose error is printed and dropped. *)
Definition checkFile (market : Market) (w : World) : list event :=
  if existsSync w (fundingRatesFile market) then
    match parseFile w (fundingRatesFile market) with
    | Ok _ => []
    | Throw err =>
        [ConsoleError (Text (fundingRatesFile market)); ConsoleError (ErrorObject err)]
    end
  else [].

(** Lines 273-275: the parse whose value is used, outside any [try]. *)
Definition loadHistory (market : Market) (w : World) : result (list FundingRate) :=
  if existsSync w (fundingRatesFile market) then parseFile w (fundingRatesFile market)
  else Ok [].

Definition crawlFundingRates (fuel : nat) (market : Market) (w : World) : run unit :=
  match assert_str (market_type market) "Swap" with
  | Throw e => Run (Rejected e) w []
  | Ok _ =>
      let w := ensureDir market w in
      let logged := checkFile market w in
      match loadHistory market w with
      | Throw e => Run (Rejected e) w logged
      | Ok fundingRatesHistory =>
          match startTime market fundingRatesHistory with
          | Throw e => Run (Rejected e) w logged
          | Ok start =>
              match crawlFunc (market_exchange market) with
              | Throw e => Run (Rejected e) w logged
              | Ok crawl =>
                  let r := retry fuel crawl market start w in
                  match settled r with
                  | Fulfilled fundingRates =>
                      let allFundingRates := merge fundingRatesHistory fundingRates in
                      (* line 326, outside any [try] *)
                      match writeFileSync (world r) (fundingRatesFile market)
                              (JSON_stringify allFundingRates) with
                      | Ok written => Run (Fulfilled tt) written (logged ++ events r)
                      | Throw e => Run (Rejected e) (world r) (logged ++ events r)
                      end
                  | Rejected e => Run (Rejected e) (world r) (logged ++ events r)
                  | Pending => Run Pending (world r) (logged ++ events r)
                  end
              end
          end
      end
  end.

(** ** Vocabulary of the statements *)

Definition ascending (l : list FundingRate) : Prop :=
  StronglySorted (λ x y, fundingTime x ≤ fundingTime y) l.

Definition valid_entry (obj : entry) : Prop := Z.abs (entry_time obj) ≤ MAX_TIME.

(** The items of the replies of a script that carry a body. *)
Definition script_entries (script : list (axios_result (list entry))) : list entry :=
  flat_map (λ reply, match reply with Resolve r => data r | Reject _ => [] end) script.

#[global] Instance valid_entry_dec (obj : entry) : Decision (valid_entry obj) :=
  decide (Z.abs (entry_time obj) ≤ MAX_TIME).

(** The records of a Huobi page that pass the filter of lines 189-191. *)
Definition huobiKept (market : Market) (lastFundingTime : number) (page : list entry)
    : list FundingRate :=
  List.filter (λ rate, num_gt (timeOf rate) lastFundingTime)
    (toFundingRate "Huobi" market <$> page).

(** The time of the last item of a page. *)
Definition lastTime (page : list entry) : Z :=
  default 0 (entry_time <$> last page).


(** What the supervisor adds to the trace after a failed attempt. *)
Definition failure_report (market : Market) (e : Error) : list event :=
  [ConsoleError (Text (market_exchange market +:+ "-" +:+ market_pair market));
   ConsoleError (MessageOf e);
   SetTimeout 5000].

(** ** Sample data *)

Definition binance_btc : Market := mkMarket "BTCUSDT" "BTC_USDT" "BTC" "Binance" "Swap".
Definition bitmex_btc : Market := mkMarket "XBTUSD" "BTC_USD" "XBT" "BitMEX" "Swap".
Definition huobi_btc : Market := mkMarket "BTC-USD" "BTC_USD" "BTC" "Huobi" "Swap".
Definition okex_btc : Market := mkMarket "BTC-USD-SWAP" "BTC_USD" "BTC-USD-SWAP" "OKEx" "Swap".

Definition sample_rate : float := 0.0001220703125%float.

Definition sample_entry (t : Z) : entry := mkEntry sample_rate t "".

Definition sample_record (market : Market) (t : Z) : FundingRate :=
  toFundingRate (market_exchange market) market (sample_entry t).

Definition ok_response {T : Type} (body : T) : response T := mkResponse 200 "OK" "ok" body.

(** A page of [n] items, eight hours apart, from time [t0] on. *)
Definition sample_page (t0 : Z) (n : nat) : list entry :=
  (λ i : nat, sample_entry (t0 + 28800000 * Z.of_nat i)) <$> seq 0 n.

Definition empty_world : World := mkWorld ∅ ∅ [] [].

Definition with_pages (script : list (axios_result (list entry))) : World :=
  mkWorld ∅ ∅ script [].

Definition okex_world : World :=
  mkWorld ∅ ∅
    [Resolve (ok_response [sample_entry 1000; sample_entry 3000; sample_entry 2000])]
    [Resolve (ok_response (sample_entry 4000))].

(** One full Binance page followed by a page of two items. *)
Definition binance_full : list (response (list entry)) :=
  [ok_response (sample_page 1568102400000 1000)].

Definition binance_short : response (list entry) :=
  ok_response (sample_page (1568102400000 + 28800000 * 1000) 2).

Definition binance_world : World :=
  with_pages ((Resolve <$> binance_full) ++ [Resolve binance_short]).

(** A full Huobi page (50 items) followed by a page of three items. *)
Definition huobi_full : list (response (list entry)) :=
  [ok_response (sample_page 1568102400000 50)].

Definition huobi_short : response (list entry) :=
  ok_response (sample_page (1568102400000 + 28800000 * 50) 3).

Definition huobi_world : World :=
  with_pages ((Resolve <$> huobi_full) ++ [Resolve huobi_short]).

(** A Binance market with one stored record, whose crawl fails twice (a
    rejected request, then a reply with status 204) before it succeeds. *)
Definition retry_history : list FundingRate := [sample_record binance_btc 1568102400000].

Definition retry_data : list FundingRate :=
  [sample_record binance_btc 1568131200000; sample_record binance_btc 1568160000000].

Definition retry_world : World :=
  mkWorld {[ "data"; "data/Binance" ]}
    {[ "data/Binance/BTC_USDT.json" := JsonText retry_history ]}
    [Reject (RequestError "socket hang up");
     Resolve (mkResponse 204 "No Content" "" []);
     Resolve (ok_response [sample_entry 1568131200000; sample_entry 1568160000000])]
    [].



(** A store whose checkpoint for the Binance market does not parse. *)
Definition garbage_world : World :=
  mkWorld {[ "data"; "data/Binance" ]}
    {[ "data/Binance/BTC_USDT.json" := Garbage "[{" ]}
    [Resolve (ok_response [sample_entry 1568131200000])] [].

(** An OKEx market with a single stored record. *)
Definition okex_single_world : World :=
  mkWorld {[ "data"; "data/OKEx" ]}
    {[ "data/OKEx/BTC_USD.json" := JsonText [sample_record okex_btc 1568102400000] ]}
    [Resolve (ok_response [sample_entry 1568131200000])]
    [Resolve (ok_response (sample_entry 1568160000000))].

(** ** Vocabulary of the further statements *)

(** The invariant of a stored sequence: times strictly increase. *)
Definition strictly_ascending (l : list FundingRate) : Prop :=
  StronglySorted (λ x y, fundingTime x < fundingTime y) l.

Definition is_Get (ev : event) : Prop := ∃ req, ev = Get req.

Definition is_ConsoleError (ev : event) : Prop := ∃ p, ev = ConsoleError p.

(** The error of [assert.strictEqual(market.type, 'Swap')]. *)
Definition swap_assertion (market : Market) : Error :=
  AssertionError (VStr (market_type market)) (VStr "Swap").

(** ** Further sample data *)

Definition spot_btc : Market := mkMarket "BTCUSDT" "BTC_USDT" "BTC" "Binance" "Spot".

(** A full Binance page, then a reply with status 204, then a short page. *)
Definition binance_broken_world : World :=
  with_pages ((Resolve <$> binance_full)
              ++ Resolve (mkResponse 204 "No Content" "" []) :: [Resolve binance_short]).

(** A full BitMEX page (500 items) followed by a page of two items. *)
Definition bitmex_full : list (response (list entry)) :=
  [ok_response (sample_page 1568088000000 500)].

Definition bitmex_short : response (list entry) :=
  ok_response (sample_page (1568088000000 + 28800000 * 500) 2).

Definition bitmex_world : World :=
  with_pages ((Resolve <$> bitmex_full) ++ [Resolve bitmex_short]).

(** An OKEx exchange whose history endpoint does not answer. *)
Definition okex_down_world : World :=
  mkWorld ∅ ∅ [Reject (RequestError "socket hang up")]
    [Resolve (ok_response (sample_entry 4000))].


(** A Binance market crawled for the first time: the exchange sends one
    short page in which a time comes twice. *)
Definition first_world : World :=
  with_pages
    [Resolve (ok_response [sample_entry 1568131200000; sample_entry 1568102400000;
                           sample_entry 1568131200000])].


(** A BitMEX market whose stored record lies at the end of the range of
    [Date]. *)
Definition bitmex_late_world : World :=
  mkWorld {[ "data"; "data/BitMEX" ]}
    {[ "data/BitMEX/BTC_USD.json" := JsonText [sample_record bitmex_btc MAX_TIME] ]}
    [Resolve (ok_response [sample_entry 1568131200000])] [].

(** Huobi pages of 50 items: one of new records only, then one that brings
    back the record at the last known time beside 49 new ones. *)
Definition huobi_seen : Z := 1568102400000.

Definition huobi_new_page : response (list entry) :=
  ok_response (sample_page (huobi_seen + 28800000) 50).

Definition huobi_refetch_page : response (list entry) :=
  ok_response (sample_entry huobi_seen :: sample_page (huobi_seen + 28800000 * 51) 49).

Definition huobi_refetch_world : World :=
  with_pages [Resolve huobi_new_page; Resolve huobi_refetch_page; Resolve huobi_short].

(** A swap market whose pair holds a slash, on an empty store. *)
Definition binance_slash : Market := mkMarket "BTCUSDT" "BTC/USDT" "BTC" "Binance" "Swap".


(** * Properties *)

(** ** The stable sort *)
Section StableSortFacts.
Context {A : Type}.
Implicit Types (gt : A → A → bool) (l : list A).

Lemma sort_insert_perm gt x l : sort_insert gt x l ≡ₚ x :: l.
Proof.
  induction l as [|y l IH]; simpl; [done|].
  destruct (gt x y); [|done].
  rewrite IH. apply Permutation_swap.
Qed.

Lemma stable_sort_perm gt l : stable_sort gt l ≡ₚ l.
Proof.
  induction l as [|x l IH]; simpl; [done|].
  by rewrite sort_insert_perm, IH.
Qed.

Lemma elem_of_stable_sort gt l x : x ∈ stable_sort gt l ↔ x ∈ l.
Proof. by rewrite stable_sort_perm. Qed.

(** Two orders that agree on the elements of [l] sort it alike. *)
Lemma sort_insert_ext gt gt' x l :
  (∀ y, y ∈ l → gt x y = gt' x y) → sort_insert gt x l = sort_insert gt' x l.
Proof.
  induction l as [|y l IH]; intros Hext; simpl; [done|].
  rewrite <- (Hext y) by set_solver.
  destruct (gt x y); [|done].
  f_equal. apply IH. intros z Hz. apply Hext. set_solver.
Qed.

Lemma stable_sort_ext gt gt' l :
  (∀ x y, x ∈ l → y ∈ l → gt x y = gt' x y) → stable_sort gt l = stable_sort gt' l.
Proof.
  induction l as [|x l IH]; intros Hext; simpl; [done|].
  rewrite IH by (intros; apply Hext; set_solver).
  apply sort_insert_ext. intros y Hy.
  apply Hext; [set_solver|]. apply elem_of_stable_sort in Hy. set_solver.
Qed.

Section ByKey.
Context (key : A → Z).

Lemma sort_insert_sorted x l :
  StronglySorted (λ x y, key x ≤ key y) l →
  StronglySorted (λ x y, key x ≤ key y) (sort_insert (gt_by key) x l).
Proof.
  induction 1 as [|y l Hl IH Hy]; simpl.
  - repeat constructor.
  - unfold gt_by at 1. case_bool_decide as Hxy.
    + constructor; [done|].
      rewrite sort_insert_perm. constructor; [lia | done].
    + constructor; [by constructor|].
      constructor; [lia|].
      eapply Forall_impl; [exact Hy|]. simpl. intros z ?. lia.
Qed.

Lemma stable_sort_sorted l :
  StronglySorted (λ x y, key x ≤ key y) (stable_sort (gt_by key) l).
Proof.
  induction l as [|x l IH]; simpl; [constructor|].
  by apply sort_insert_sorted.
Qed.

(** Sorting a sorted list changes nothing. *)
Lemma stable_sort_id l :
  StronglySorted (λ x y, key x ≤ key y) l → stable_sort (gt_by key) l = l.
Proof.
  induction 1 as [|x l Hl IH Hx]; simpl; [done|].
  rewrite IH. destruct Hx as [|y l Hxy _]; simpl; [done|].
  unfold gt_by. rewrite bool_decide_false; [done | lia].
Qed.
End ByKey.
End StableSortFacts.

Lemma sortBy_sorted {A : Type} (key : A → Z) (l : list A) :
  StronglySorted (λ x y, key x ≤ key y) (sortBy l key).
Proof. apply stable_sort_sorted. Qed.

Lemma sortBy_perm {A : Type} (key : A → Z) (l : list A) : sortBy l key ≡ₚ l.
Proof. apply stable_sort_perm. Qed.

Lemma sortBy_id {A : Type} (key : A → Z) (l : list A) :
  StronglySorted (λ x y, key x ≤ key y) l → sortBy l key = l.
Proof. apply stable_sort_id. Qed.

(** ** lodash's [uniqBy] *)
Section UniqFacts.
Context {A : Type} (key : A → Z).
Implicit Types (seen : list Z) (l : list A).

Lemma baseUniq_seen_ext seen seen' l :
  (∀ k, k ∈ seen ↔ k ∈ seen') → baseUniq key seen l = baseUniq key seen' l.
Proof.
  revert seen seen'. induction l as [|x l IH]; intros seen seen' Hext; simpl; [done|].
  rewrite (bool_decide_ext _ _ (Hext (key x))).
  case_bool_decide; [by apply IH|].
  f_equal. apply IH. intros k. rewrite !elem_of_cons. by rewrite Hext.
Qed.

Lemma baseUniq_app seen l1 l2 :
  baseUniq key seen (l1 ++ l2)
  = baseUniq key seen l1 ++ baseUniq key ((key <$> l1) ++ seen) l2.
Proof.
  revert seen. induction l1 as [|x l1 IH]; intros seen; simpl; [done|].
  case_bool_decide as Hx.
  - rewrite IH. f_equal. apply baseUniq_seen_ext.
    intros k. set_solver.
  - rewrite IH. simpl. do 2 f_equal. apply baseUniq_seen_ext.
    intros k. set_solver.
Qed.

Lemma baseUniq_all_seen seen l :
  (∀ x, x ∈ l → key x ∈ seen) → baseUniq key seen l = [].
Proof.
  induction l as [|x l IH]; intros Hall; simpl; [done|].
  rewrite bool_decide_true by (apply Hall; set_solver).
  apply IH. intros y Hy. apply Hall. set_solver.
Qed.

(** A list whose keys are distinct and unseen is kept whole. *)
Lemma baseUniq_id seen l :
  NoDup (key <$> l) → (∀ x, x ∈ l → key x ∉ seen) → baseUniq key seen l = l.
Proof.
  revert seen. induction l as [|x l IH]; intros seen Hnd Hun; simpl; [done|].
  rewrite fmap_cons in Hnd. apply NoDup_cons in Hnd as [Hx Hnd].
  rewrite bool_decide_false by (apply Hun; set_solver).
  f_equal. apply IH; [done|].
  intros y Hy [Heq|Hin]%elem_of_cons.
  - apply Hx. rewrite <- Heq. apply list_elem_of_fmap. eauto.
  - eapply Hun; [|done]. set_solver.
Qed.

Lemma elem_of_baseUniq seen l x : x ∈ baseUniq key seen l → x ∈ l ∧ key x ∉ seen.
Proof.
  revert seen. induction l as [|y l IH]; intros seen; simpl; [by intros ?%elem_of_nil|].
  case_bool_decide as Hy.
  - intros [??]%IH. set_solver.
  - intros [->|[??]%IH]%elem_of_cons; set_solver.
Qed.

Lemma baseUniq_NoDup seen l : NoDup (key <$> baseUniq key seen l).
Proof.
  revert seen. induction l as [|x l IH]; intros seen; simpl; [constructor|].
  case_bool_decide as Hx; [apply IH|].
  rewrite fmap_cons. apply NoDup_cons. split; [|apply IH].
  intros (y & Hk & [_ Hy]%elem_of_baseUniq)%list_elem_of_fmap.
  apply Hy. rewrite Hk. set_solver.
Qed.

(** No unseen key is lost. *)
Lemma baseUniq_covers seen l x :
  x ∈ l → key x ∉ seen → ∃ y, y ∈ baseUniq key seen l ∧ key y = key x.
Proof.
  revert seen. induction l as [|z l IH]; intros seen Hin Hun; [by apply elem_of_nil in Hin|].
  simpl. apply elem_of_cons in Hin as [->|Hin].
  - rewrite bool_decide_false by done. exists z. set_solver.
  - case_bool_decide as Hz.
    + destruct (IH seen Hin Hun) as (y & ? & ?). eauto.
    + destruct (decide (key x = key z)) as [Heq|Hne].
      * exists z. set_solver.
      * destruct (IH (key z :: seen) Hin) as (y & ? & ?); [set_solver|].
        exists y. set_solver.
Qed.

(** The element kept for a key is the first one of the array with it. *)
Lemma baseUniq_first seen l x :
  x ∈ baseUniq key seen l →
  List.find (λ y, bool_decide (key y = key x)) l = Some x.
Proof.
  revert seen. induction l as [|z l IH]; intros seen; simpl; [by intros ?%elem_of_nil|].
  case_bool_decide as Hz.
  - intros Hx. pose proof (elem_of_baseUniq _ _ _ Hx) as [_ Hun].
    rewrite bool_decide_false by congruence. by eapply IH.
  - intros [->|Hx]%elem_of_cons.
    + by rewrite bool_decide_true.
    + pose proof (elem_of_baseUniq _ _ _ Hx) as [_ Hun].
      rewrite bool_decide_false by set_solver. by eapply IH.
Qed.
End UniqFacts.

Lemma find_app_l {A : Type} (p : A → bool) (l1 l2 : list A) (x y : A) :
  x ∈ l1 → p x = true → List.find p (l1 ++ l2) = Some y → y ∈ l1.
Proof.
  induction l1 as [|z l1 IH]; simpl; [by intros ?%elem_of_nil|].
  intros Hin Hp. destruct (p z) eqn:Hz.
  - intros [= ->]. set_solver.
  - apply elem_of_cons in Hin as [->|Hin]; [congruence|].
    intros Hf. apply elem_of_cons. right. by apply IH.
Qed.

(** ** The merge step *)

Lemma merge_perm h f : merge h f ≡ₚ uniqBy (h ++ f) fundingTime.
Proof. apply sortBy_perm. Qed.

Lemma merge_sorted h f :
  StronglySorted (λ x y, fundingTime x ≤ fundingTime y) (merge h f).
Proof. apply sortBy_sorted. Qed.

Lemma merge_NoDup h f : NoDup (fundingTime <$> merge h f).
Proof.
  rewrite merge_perm. apply baseUniq_NoDup.
Qed.

Lemma merge_covers h f x :
  x ∈ h ++ f → ∃ y, y ∈ merge h f ∧ fundingTime y = fundingTime x.
Proof.
  intros Hin. destruct (baseUniq_covers fundingTime [] (h ++ f) x Hin) as (y & Hy & Hk).
  { apply not_elem_of_nil. }
  exists y. split; [|done]. by rewrite merge_perm.
Qed.

(** C1. For every history [h] and fresh batch [f], [merge h f] is sorted
    ascending by [fundingTime], holds no two records with the same
    [fundingTime], holds for each of its times the first record of [h ++ f]
    with that time, so that a time present in [h] is represented by a record
    of [h], and loses no time of [h] or [f]. *)
Theorem merge_sorted_unique_first_wins (h f : list FundingRate) :
  StronglySorted (λ x y, fundingTime x ≤ fundingTime y) (merge h f)
  ∧ NoDup (fundingTime <$> merge h f)
  ∧ (∀ x, x ∈ merge h f →
       List.find (λ y, bool_decide (fundingTime y = fundingTime x)) (h ++ f) = Some x)
  ∧ (∀ x y, x ∈ h → y ∈ merge h f → fundingTime y = fundingTime x → y ∈ h)
  ∧ (∀ x, x ∈ h ++ f → ∃ y, y ∈ merge h f ∧ fundingTime y = fundingTime x).
Proof.
  assert (Hfirst : ∀ x, x ∈ merge h f →
    List.find (λ y, bool_decide (fundingTime y = fundingTime x)) (h ++ f) = Some x).
  { intros x Hx. rewrite merge_perm in Hx. by eapply baseUniq_first. }
  split; [apply merge_sorted|].
  split; [apply merge_NoDup|].
  split; [done|].
  split; [|apply merge_covers].
  intros x y Hx Hy Heq.
  eapply (find_app_l _ h f x y Hx); [|by apply Hfirst].
  by apply bool_decide_eq_true.
Qed.

(** C2. Merging the merged result with the same fresh batch again changes
    nothing. *)
Theorem merge_idempotent (h f : list FundingRate) :
  merge (merge h f) f = merge h f.
Proof.
  unfold merge at 1.
  assert (Huniq : uniqBy (merge h f ++ f) fundingTime = merge h f).
  { unfold uniqBy. rewrite baseUniq_app.
    rewrite baseUniq_id; [| apply merge_NoDup | intros; apply not_elem_of_nil].
    rewrite baseUniq_all_seen; [apply app_nil_r|].
    intros x Hx.
    destruct (merge_covers h f x) as (y & Hy & Hk); [set_solver|].
    rewrite app_nil_r, <- Hk. apply list_elem_of_fmap. eauto. }
  rewrite Huniq. apply sortBy_id, merge_sorted.
Qed.

(** ** The resume timestamp *)

Lemma Date_getTime_valid (z : Z) : Z.abs z ≤ MAX_TIME → Date_getTime (Num z) = Num z.
Proof. intros Hz. unfold Date_getTime, TimeClip. by rewrite bool_decide_true. Qed.

Lemma timeOf_valid (x : FundingRate) : valid_time x → timeOf x = Num (fundingTime x).
Proof. apply Date_getTime_valid. Qed.

Lemma Array_get_last {A : Type} (arr : list A) (x : A) :
  last arr = Some x → Array_get arr (Z.of_nat (length arr) - 1) = Some x.
Proof.
  intros Hlast. unfold Array_get.
  destruct arr as [|y arr]; [done|].
  rewrite bool_decide_true by (simpl; lia).
  rewrite last_lookup in Hlast. simpl in *.
  by replace (Z.to_nat (Z.of_nat (S (length arr)) - 1)) with (length arr) by lia.
Qed.

(** C3, as the code has it. For a market that is not on OKEx and a stored
    sequence whose last record has a valid time [T], the resume timestamp is
    [T + 1000]: one second, in milliseconds. *)
Theorem startTime_after_last (market : Market) (h : list FundingRate) (x : FundingRate) :
  market_exchange market ≠ "OKEx" →
  last h = Some x →
  valid_time x →
  startTime market h = Ok (Num (fundingTime x + 1000)).
Proof.
  intros Hex Hlast Hvalid. unfold startTime.
  assert (Hlen : (0 < length h)%nat) by (destruct h; [done | simpl; lia]).
  rewrite bool_decide_false by lia.
  apply String.eqb_neq in Hex. rewrite Hex.
  rewrite (Array_get_last h x Hlast).
  by rewrite Date_getTime_valid.
Qed.

Lemma startTime_after_last_witness :
  startTime binance_btc [sample_record binance_btc 1000; sample_record binance_btc 2000]
  = Ok (Num (2000 + 1000)).
Proof.
  apply (startTime_after_last binance_btc _ (sample_record binance_btc 2000)).
  - vm_compute. congruence.
  - reflexivity.
  - vm_compute. congruence.
Defined.

(** C3 as stated ([T + 1]) fails: after a record at time 1000 the crawl
    resumes at 2000, not at 1001. *)
Lemma startTime_is_not_last_plus_one :
  ¬ (∀ (market : Market) (h : list FundingRate) (x : FundingRate),
       market_exchange market ≠ "OKEx" →
       last h = Some x →
       startTime market h = Ok (Num (fundingTime x + 1))).
Proof.
  intros Hclaim.
  specialize (Hclaim binance_btc [sample_record binance_btc 1000]
                (sample_record binance_btc 1000)).
  vm_compute in Hclaim.
  assert (Hne : "Binance" ≠ "OKEx") by congruence.
  specialize (Hclaim Hne eq_refl). congruence.
Qed.

(** Beyond the range of [Date] the resume timestamp is [NaN]. *)
Lemma startTime_invalid_date :
  startTime binance_btc [sample_record binance_btc (MAX_TIME + 1)] = Ok NaN.
Proof. reflexivity. Qed.

(** C4, as the code has it. For an OKEx market and a stored sequence that
    ends with the records [x1], [x2], the resume timestamp is the time of
    [x1] plus 1000 ms, whatever the time of [x2]. *)
Theorem startTime_OKEx_second_to_last (market : Market) (h : list FundingRate)
    (x1 x2 : FundingRate) :
  market_exchange market = "OKEx" →
  valid_time x1 →
  startTime market (h ++ [x1; x2]) = Ok (Num (fundingTime x1 + 1000)).
Proof.
  intros Hex Hvalid. unfold startTime.
  rewrite length_app. simpl length.
  rewrite bool_decide_false by lia.
  rewrite Hex. simpl String.eqb. unfold Array_get.
  rewrite bool_decide_true by lia.
  replace (Z.to_nat (Z.of_nat (length h + 2) - 2)) with (length h + 0)%nat by lia.
  rewrite lookup_app_r by lia.
  replace (length h + 0 - length h)%nat with 0%nat by lia.
  change ([x1; x2] !! 0%nat) with (Some x1). cbv beta iota.
  by rewrite Date_getTime_valid.
Qed.

Lemma startTime_OKEx_second_to_last_witness :
  startTime okex_btc
    ([sample_record okex_btc 1000] ++ [sample_record okex_btc 2000; sample_record okex_btc 3000])
  = Ok (Num (2000 + 1000)).
Proof.
  apply (startTime_OKEx_second_to_last okex_btc [sample_record okex_btc 1000]
           (sample_record okex_btc 2000) (sample_record okex_btc 3000)).
  - reflexivity.
  - vm_compute. congruence.
Defined.

(** C4 as stated ([T1 + 1]) fails: with stored times 1000 < 2000 the OKEx
    crawl resumes at 2000 = 1000 + 1000, not at 1001. *)
Lemma startTime_OKEx_is_not_plus_one :
  ¬ (∀ (market : Market) (h : list FundingRate) (x1 x2 : FundingRate),
       market_exchange market = "OKEx" →
       fundingTime x1 < fundingTime x2 →
       startTime market (h ++ [x1; x2]) = Ok (Num (fundingTime x1 + 1))).
Proof.
  intros Hclaim.
  specialize (Hclaim okex_btc [] (sample_record okex_btc 1000)
                (sample_record okex_btc 2000) eq_refl).
  vm_compute in Hclaim. specialize (Hclaim eq_refl). congruence.
Qed.

(** ** The pagination loops *)

Lemma settled_after {A : Type} (evs : list event) (r : run A) :
  settled (after evs r) = settled r.
Proof. done. Qed.

Lemma world_after {A : Type} (evs : list event) (r : run A) :
  world (after evs r) = world r.
Proof. done. Qed.

Lemma script_entries_cons_resolve r script :
  script_entries (Resolve r :: script) = data r ++ script_entries script.
Proof. done. Qed.

Lemma last_None_nil {A : Type} (l : list A) : last l = None → l = [].
Proof. destruct l as [|x l] using rev_ind; [done|]. by rewrite last_snoc. Qed.

(** A reply that passes the checks of a one-shot fetch. *)
Lemma fetch_inv {T A : Type} (pre : result unit) (req : request)
    (k : response T → result A) (req' : request) (k' : axios_result T → result A) :
  fetch pre req k = Await req' k' →
  req' = req ∧ ∀ reply a, k' reply = Ok a → ∃ r, reply = Resolve r ∧ k r = Ok a.
Proof.
  unfold fetch. destruct pre as [[]|e0]; [|done]. intros [= <- <-]. split; [done|].
  intros [r|e] b; [eauto | done].
Qed.

Lemma assert_num_ok (actual expected : Z) :
  assert_num actual expected = Ok tt → actual = expected.
Proof.
  unfold assert_num, assert_strictEqual. case_bool_decide; [done|discriminate].
Qed.

Lemma assert_str_ok (actual expected : string) :
  assert_str actual expected = Ok tt → actual = expected.
Proof.
  unfold assert_str, assert_strictEqual.
  destruct (String.eqb actual expected) eqn:E; [|discriminate].
  intros _. by apply String.eqb_eq.
Qed.

Lemma bind_ok_inv {A B : Type} (r : result A) (k : A → result B) (b : B) :
  r ≫= k = Ok b → ∃ a, r = Ok a ∧ k a = Ok b.
Proof. destruct r as [a|e]; [eauto | done]. Qed.

Lemma crawlBinanceFundingRateOneshot_ok market st req k reply a :
  crawlBinanceFundingRateOneshot market st = Await req k →
  k reply = Ok a →
  ∃ r, reply = Resolve r ∧ a = toFundingRate "Binance" market <$> data r.
Proof.
  intros [-> Hone]%fetch_inv Hk.
  destruct (Hone _ _ Hk) as (r & -> & Hr).
  apply bind_ok_inv in Hr as ([] & _ & [= <-]). eauto.
Qed.

Lemma crawlBitMEXFundingRateOneshot_ok market st req k reply a :
  crawlBitMEXFundingRateOneshot market st = Await req k →
  k reply = Ok a →
  ∃ r, reply = Resolve r ∧ a = toFundingRate "BitMEX" market <$> data r.
Proof.
  unfold crawlBitMEXFundingRateOneshot.
  destruct (_ ≫= _) as [iso|e]; [|done].
  intros [-> Hone]%fetch_inv Hk.
  destruct (Hone _ _ Hk) as (r & -> & Hr).
  apply bind_ok_inv in Hr as ([] & _ & Hr).
  apply bind_ok_inv in Hr as ([] & _ & [= <-]). eauto.
Qed.

Lemma crawlHuobiFundingRateOneshot_ok market pageIndex req k reply a :
  crawlHuobiFundingRateOneshot market pageIndex = Await req k →
  k reply = Ok a →
  ∃ r, reply = Resolve r ∧ a = toFundingRate "Huobi" market <$> data r.
Proof.
  intros [-> Hone]%fetch_inv Hk.
  destruct (Hone _ _ Hk) as (r & -> & Hr).
  apply bind_ok_inv in Hr as ([] & _ & Hr).
  apply bind_ok_inv in Hr as ([] & _ & [= <-]). eauto.
Qed.

(** Every fulfilled Binance crawl returns, sorted by the comparator, the
    records accumulated so far and those of the replies it consumed. *)
Lemma crawlBinanceFundingRate_loop_fulfilled market w script :
  ∀ st acc out,
    settled (crawlBinanceFundingRate_loop market st acc w script) = Fulfilled out →
    ∃ consumed,
      script = consumed ++ pages (world (crawlBinanceFundingRate_loop market st acc w script))
      ∧ out = Array_sort byTime
                (acc ++ (toFundingRate "Binance" market <$> script_entries consumed)).
Proof.
  induction script as [|reply script IH]; intros st acc out; simpl.
  - destruct (crawlBinanceFundingRateOneshot market st); done.
  - destruct (crawlBinanceFundingRateOneshot market st) as [e|req k] eqn:Hone; [done|].
    destruct (k reply) as [fundingRates|e] eqn:Hk; [|done].
    destruct (crawlBinanceFundingRateOneshot_ok _ _ _ _ _ _ Hone Hk) as (r & -> & ->).
    rewrite fmap_last.
    destruct (last (data r)) as [obj|] eqn:Hlast; simpl;
      case_bool_decide; simpl.
    + intros (consumed & Hc & ->)%IH. exists (Resolve r :: consumed).
      split; [by rewrite <- app_comm_cons, <- Hc|].
      by rewrite script_entries_cons_resolve, fmap_app, app_assoc.
    + intros [= <-]. exists [Resolve r]. split; [done|].
      rewrite script_entries_cons_resolve. simpl. by rewrite app_nil_r.
    + intros (consumed & Hc & ->)%IH. exists (Resolve r :: consumed).
      split; [by rewrite <- app_comm_cons, <- Hc|].
      rewrite script_entries_cons_resolve, (last_None_nil _ Hlast). done.
    + intros [= <-]. exists [Resolve r]. split; [done|].
      rewrite script_entries_cons_resolve, (last_None_nil _ Hlast). simpl.
      by rewrite app_nil_r.
Qed.

Lemma crawlBitMEXFundingRate_loop_fulfilled market w script :
  ∀ st acc out,
    settled (crawlBitMEXFundingRate_loop market st acc w script) = Fulfilled out →
    ∃ consumed,
      script = consumed ++ pages (world (crawlBitMEXFundingRate_loop market st acc w script))
      ∧ out = Array_sort byTime
                (acc ++ (toFundingRate "BitMEX" market <$> script_entries consumed)).
Proof.
  induction script as [|reply script IH]; intros st acc out; simpl.
  - destruct (crawlBitMEXFundingRateOneshot market st); done.
  - destruct (crawlBitMEXFundingRateOneshot market st) as [e|req k] eqn:Hone; [done|].
    destruct (k reply) as [fundingRates|e] eqn:Hk; [|done].
    destruct (crawlBitMEXFundingRateOneshot_ok _ _ _ _ _ _ Hone Hk) as (r & -> & ->).
    rewrite fmap_last.
    destruct (last (data r)) as [obj|] eqn:Hlast; simpl;
      case_bool_decide; simpl.
    + intros (consumed & Hc & ->)%IH. exists (Resolve r :: consumed).
      split; [by rewrite <- app_comm_cons, <- Hc|].
      by rewrite script_entries_cons_resolve, fmap_app, app_assoc.
    + intros [= <-]. exists [Resolve r]. split; [done|].
      rewrite script_entries_cons_resolve. simpl. by rewrite app_nil_r.
    + intros (consumed & Hc & ->)%IH. exists (Resolve r :: consumed).
      split; [by rewrite <- app_comm_cons, <- Hc|].
      rewrite script_entries_cons_resolve, (last_None_nil _ Hlast). done.
    + intros [= <-]. exists [Resolve r]. split; [done|].
      rewrite script_entries_cons_resolve, (last_None_nil _ Hlast). simpl.
      by rewrite app_nil_r.
Qed.

(** A fulfilled Huobi crawl returns, sorted, the accumulated records and the
    records of the consumed replies that are later than [lastFundingTime]. *)
Lemma crawlHuobiFundingRate_loop_fulfilled market lastFundingTime w script :
  ∀ pageIndex acc out,
    settled (crawlHuobiFundingRate_loop market lastFundingTime acc pageIndex w script)
    = Fulfilled out →
    ∃ consumed,
      script = consumed ++ pages (world (crawlHuobiFundingRate_loop market lastFundingTime
                                            acc pageIndex w script))
      ∧ out = Array_sort byTime
                (acc ++ List.filter (λ rate, num_gt (timeOf rate) lastFundingTime)
                          (toFundingRate "Huobi" market <$> script_entries consumed)).
Proof.
  induction script as [|reply script IH]; intros pageIndex acc out; simpl.
  - destruct (crawlHuobiFundingRateOneshot market pageIndex); done.
  - destruct (crawlHuobiFundingRateOneshot market pageIndex) as [e|req k] eqn:Hone; [done|].
    destruct (k reply) as [fetched|e] eqn:Hk; [|done].
    destruct (crawlHuobiFundingRateOneshot_ok _ _ _ _ _ _ Hone Hk) as (r & -> & ->).
    set (kept := List.filter _ (toFundingRate "Huobi" market <$> data r)).
    assert (Hacc : (if bool_decide (0 < Z.of_nat (length kept)) then acc ++ kept else acc)
                   = acc ++ kept).
    { case_bool_decide; [done|]. destruct kept; [by rewrite app_nil_r | simpl in *; lia]. }
    rewrite Hacc. clear Hacc. case_bool_decide; simpl.
    + intros (consumed & Hc & ->)%IH. exists (Resolve r :: consumed).
      split; [by rewrite <- app_comm_cons, <- Hc|].
      by rewrite script_entries_cons_resolve, fmap_app, List.filter_app, app_assoc.
    + intros [= <-]. exists [Resolve r]. split; [done|].
      rewrite script_entries_cons_resolve. simpl. by rewrite app_nil_r.
Qed.

(** ** What a crawl returns *)

Lemma Array_sort_perm {A : Type} (cmp : A → A → number) (l : list A) :
  Array_sort cmp l ≡ₚ l.
Proof. apply stable_sort_perm. Qed.

(** On valid dates the comparator of the crawlers orders by [fundingTime]. *)
Lemma Array_sort_byTime_valid (l : list FundingRate) :
  Forall valid_time l → Array_sort byTime l = sortBy l fundingTime.
Proof.
  intros Hvalid. apply stable_sort_ext. intros x y Hx Hy.
  rewrite Forall_forall in Hvalid.
  unfold byTime, gt_by. rewrite !timeOf_valid by auto. simpl.
  apply bool_decide_ext. lia.
Qed.

Lemma Array_sort_byTime_ascending (l : list FundingRate) :
  Forall valid_time l → ascending (Array_sort byTime l).
Proof.
  intros Hvalid. rewrite Array_sort_byTime_valid by done. apply sortBy_sorted.
Qed.

Lemma num_ge_timeOf (x : FundingRate) (start : number) :
  num_ge (timeOf x) start = true →
  valid_time x ∧ ∃ s, start = Num s ∧ s ≤ fundingTime x.
Proof.
  unfold timeOf, Date_getTime, TimeClip, valid_time.
  case_bool_decide; [|done]. destruct start as [s|]; [|done]. simpl.
  intros ?%bool_decide_eq_true. eauto.
Qed.

Lemma num_gt_timeOf (x : FundingRate) (lastFundingTime : number) :
  num_gt (timeOf x) lastFundingTime = true →
  valid_time x ∧ ∃ s, lastFundingTime = Num s ∧ s < fundingTime x.
Proof.
  unfold timeOf, Date_getTime, TimeClip, valid_time.
  case_bool_decide; [|done]. destruct lastFundingTime as [s|]; [|done]. simpl.
  intros ?%bool_decide_eq_true. eauto.
Qed.

Lemma valid_time_toFundingRate exch market obj :
  valid_entry obj → valid_time (toFundingRate exch market obj).
Proof. done. Qed.

(** A sorted filter: every element passes the test, and when the test
    implies a valid date the result is ascending. *)
Lemma Array_sort_filter_ascending (p : FundingRate → bool) (l : list FundingRate) :
  (∀ x, p x = true → valid_time x) →
  ascending (Array_sort byTime (List.filter p l))
  ∧ ∀ x, x ∈ Array_sort byTime (List.filter p l) → p x = true.
Proof.
  intros Hp. split.
  - apply Array_sort_byTime_ascending, Forall_forall.
    intros x Hx%list_elem_of_In%List.filter_In. apply Hp, Hx.
  - intros x. rewrite Array_sort_perm.
    intros Hx%list_elem_of_In%List.filter_In. apply Hx.
Qed.

Lemma crawlOKExFundingRate_fulfilled market start w out :
  settled (crawlOKExFundingRate market start w) = Fulfilled out →
  ∃ l, out = Array_sort byTime (List.filter (λ x, num_ge (timeOf x) start) l).
Proof.
  unfold crawlOKExFundingRate.
  destruct (settled (perform _ w)) as [fundingRateHistory| |]; [|done..].
  destruct (settled (perform_current _ _)) as [fundingRateCurrent| |]; [|done..].
  simpl. intros [= <-]. eauto.
Qed.

(** C6, as the code has it. A fulfilled crawl returns: on OKEx, only records
    with [fundingTime >= startTime], ascending; on Huobi, only records later
    than its time argument, ascending; on Binance and BitMEX, every record of
    the replies it consumed, whatever its time (nothing is filtered there),
    ascending when those records carry valid dates. *)
Theorem crawl_output (exch : string) (crawl : crawlFunc_t) (market : Market)
    (start : number) (w : World) (out : list FundingRate) :
  crawlFunc exch = Ok crawl →
  settled (crawl market start w) = Fulfilled out →
  (exch = "OKEx" →
     ascending out ∧ ∀ x, x ∈ out → ∃ s, start = Num s ∧ s ≤ fundingTime x)
  ∧ (exch = "Huobi" →
     ascending out ∧ ∀ x, x ∈ out → ∃ s, start = Num s ∧ s < fundingTime x)
  ∧ (exch = "Binance" ∨ exch = "BitMEX" →
     ∃ consumed,
       pages w = consumed ++ pages (world (crawl market start w))
       ∧ out ≡ₚ (toFundingRate exch market <$> script_entries consumed)
       ∧ (Forall valid_entry (script_entries consumed) → ascending out)).
Proof.
  intros Hcrawl Hout.
  assert (Hplain : ∀ name consumed,
    out = Array_sort byTime ([] ++ (toFundingRate name market <$> script_entries consumed)) →
    out ≡ₚ (toFundingRate name market <$> script_entries consumed)
    ∧ (Forall valid_entry (script_entries consumed) → ascending out)).
  { intros name consumed ->. simpl. split; [apply Array_sort_perm|].
    intros Hvalid. apply Array_sort_byTime_ascending.
    apply Forall_fmap. eapply Forall_impl; [exact Hvalid|]. done. }
  unfold crawlFunc in Hcrawl.
  destruct (String.eqb exch "Binance") eqn:E1.
  { apply String.eqb_eq in E1 as ->. injection Hcrawl as <-.
    split; [done|]. split; [done|]. intros _.
    apply crawlBinanceFundingRate_loop_fulfilled in Hout as (consumed & Hc & Ho).
    exists consumed. split; [exact Hc|]. by apply Hplain. }
  destruct (String.eqb exch "BitMEX") eqn:E2.
  { apply String.eqb_eq in E2 as ->. injection Hcrawl as <-.
    split; [done|]. split; [done|]. intros _.
    apply crawlBitMEXFundingRate_loop_fulfilled in Hout as (consumed & Hc & Ho).
    exists consumed. split; [exact Hc|]. by apply Hplain. }
  destruct (String.eqb exch "Huobi") eqn:E3.
  { apply String.eqb_eq in E3 as ->. injection Hcrawl as <-.
    split; [done|]. split; [|intros [|]; done]. intros _.
    apply crawlHuobiFundingRate_loop_fulfilled in Hout as (consumed & _ & ->).
    simpl.
    destruct (Array_sort_filter_ascending (λ rate, num_gt (timeOf rate) start)
                (toFundingRate "Huobi" market <$> script_entries consumed)) as [Hasc Hall].
    { intros x Hx. by apply num_gt_timeOf in Hx as [? _]. }
    split; [done|]. intros x Hx%Hall. by apply num_gt_timeOf in Hx as [_ ?]. }
  destruct (String.eqb exch "OKEx") eqn:E4; [|done].
  apply String.eqb_eq in E4 as ->. injection Hcrawl as <-.
  split; [|split; [done | intros [|]; done]]. intros _.
  apply crawlOKExFundingRate_fulfilled in Hout as (l & ->).
  destruct (Array_sort_filter_ascending (λ x, num_ge (timeOf x) start) l) as [Hasc Hall].
  { intros x Hx. by apply num_ge_timeOf in Hx as [? _]. }
  split; [done|]. intros x Hx%Hall. by apply num_ge_timeOf in Hx as [_ ?].
Qed.

Lemma crawl_output_witness :
  ∃ out,
    settled (crawlOKExFundingRate okex_btc (Num 2000) okex_world) = Fulfilled out
    ∧ ascending out
    ∧ ∀ x, x ∈ out → ∃ s, Num 2000 = Num s ∧ s ≤ fundingTime x.
Proof.
  eexists. split; [reflexivity|].
  eapply (crawl_output "OKEx" crawlOKExFundingRate okex_btc (Num 2000) okex_world);
    reflexivity.
Defined.

(** C6 as stated fails on Binance: asked for records from time 10 on, the
    crawl keeps a record at time 5 that the exchange sent. *)
Lemma crawl_output_not_filtered :
  ¬ (∀ (exch : string) (crawl : crawlFunc_t) (market : Market) (start : number)
       (w : World) (out : list FundingRate) (x : FundingRate),
       crawlFunc exch = Ok crawl →
       settled (crawl market start w) = Fulfilled out →
       x ∈ out →
       num_ge (timeOf x) start = true).
Proof.
  intros Hclaim.
  assert (Hin : sample_record binance_btc 5 ∈ [sample_record binance_btc 5])
    by apply list_elem_of_here.
  specialize (Hclaim "Binance" crawlBinanceFundingRate binance_btc (Num 10)
                (with_pages [Resolve (ok_response [sample_entry 5])])
                [sample_record binance_btc 5] (sample_record binance_btc 5)
                eq_refl eq_refl Hin).
  vm_compute in Hclaim. discriminate Hclaim.
Qed.

(** ** Pagination against a script of good replies *)

Lemma last_lastTime (page : list entry) (obj : entry) :
  last page = Some obj → lastTime page = entry_time obj.
Proof. unfold lastTime. by intros ->. Qed.

Lemma last_is_Some {A : Type} (l : list A) : (0 < length l)%nat → is_Some (last l).
Proof.
  destruct l as [|x l] using rev_ind; [simpl; lia|].
  rewrite last_snoc. eauto.
Qed.

(** One iteration of the Binance loop on a reply with status 200. *)
Lemma crawlBinanceFundingRate_loop_step market st acc w r script :
  market_type market = "Swap" →
  status r = 200 →
  crawlBinanceFundingRate_loop market st acc w (Resolve r :: script)
  = let fundingRates := toFundingRate "Binance" market <$> data r in
    let '(acc', st') :=
      match last fundingRates with
      | Some x => (acc ++ fundingRates, num_add (timeOf x) (Num 1000))
      | None => (acc, st)
      end in
    if bool_decide (1000 ≤ Z.of_nat (length fundingRates))
    then after [Get (BinanceFundingRate (market_id market) st)]
           (crawlBinanceFundingRate_loop market st' acc' w script)
    else Run (Fulfilled (Array_sort byTime acc')) (set_pages w script)
           [Get (BinanceFundingRate (market_id market) st)].
Proof.
  intros Hswap Hstatus. simpl.
  unfold crawlBinanceFundingRateOneshot. rewrite Hswap.
  change (assert_str "Swap" "Swap") with (Ok tt). cbn [fetch].
  rewrite Hstatus. reflexivity.
Qed.

(** The Binance loop on [full] pages (1000 items or more each) followed by a
    shorter page: it asks once per page, each time from one second after the
    last item of the previous page, and stops at the short page. *)
Lemma crawlBinanceFundingRate_loop_pages market w lastp rest full :
  market_type market = "Swap" →
  status lastp = 200 →
  Z.of_nat (length (data lastp)) < 1000 →
  Forall (λ r, status r = 200 ∧ 1000 ≤ Z.of_nat (length (data r))
               ∧ Forall valid_entry (data r)) full →
  ∀ st acc,
    crawlBinanceFundingRate_loop market st acc w ((Resolve <$> full) ++ Resolve lastp :: rest)
    = Run (Fulfilled
             (Array_sort byTime
                (acc ++ (toFundingRate "Binance" market
                           <$> flat_map data (full ++ [lastp])))))
          (set_pages w rest)
          (Get <$> (BinanceFundingRate (market_id market)
                      <$> (st :: ((λ r, Num (lastTime (data r) + 1000)) <$> full)))).
Proof.
  intros Hswap Hlast Hshort Hfull.
  induction Hfull as [|r full (Hstatus & Hlen & Hvalid) _ IH]; intros st acc.
  - simpl app. rewrite crawlBinanceFundingRate_loop_step by done.
    cbv zeta. rewrite length_fmap, bool_decide_false by lia.
    simpl flat_map. rewrite app_nil_r. rewrite fmap_last.
    destruct (last (data lastp)) as [obj|] eqn:Hobj; simpl; [done|].
    by rewrite (last_None_nil _ Hobj), app_nil_r.
  - rewrite fmap_cons, <- app_comm_cons.
    rewrite crawlBinanceFundingRate_loop_step by done.
    cbv zeta. rewrite length_fmap, bool_decide_true by lia.
    rewrite fmap_last.
    destruct (last_is_Some (data r)) as [obj Hobj]; [lia|].
    rewrite Hobj. simpl.
    rewrite IH. unfold after. simpl. f_equal.
    + by rewrite fmap_app, app_assoc.
    + rewrite timeOf_valid.
      2:{ apply valid_time_toFundingRate. rewrite Forall_forall in Hvalid.
          apply Hvalid. by eapply last_Some_elem_of. }
      simpl. by rewrite (last_lastTime _ _ Hobj).
Qed.

(** While every scripted page is full, the loop asks for a further page. *)
Lemma crawlBinanceFundingRate_loop_pending market w full :
  market_type market = "Swap" →
  Forall (λ r, status r = 200 ∧ 1000 ≤ Z.of_nat (length (data r))) full →
  ∀ st acc,
    settled (crawlBinanceFundingRate_loop market st acc w (Resolve <$> full)) = Pending.
Proof.
  intros Hswap Hfull.
  induction Hfull as [|r full (Hstatus & Hlen) _ IH]; intros st acc.
  - simpl. unfold crawlBinanceFundingRateOneshot. by rewrite Hswap.
  - rewrite fmap_cons, crawlBinanceFundingRate_loop_step by done.
    cbv zeta. rewrite length_fmap, bool_decide_true by lia.
    destruct (last _); apply IH.
Qed.

(** C7. The Binance loop, on pages of 1000 items (or more) followed by a page
    of fewer than 1000: it fulfils, having consumed exactly these pages; its
    requests start at [start] and then at the time of the last item of the
    previous page plus 1000 ms; its output holds the records of all these
    pages, ascending by [fundingTime]. With the full pages alone in the
    script it is still waiting for a page. *)
Theorem binance_pagination (market : Market) (start : number) (w : World)
    (full : list (response (list entry))) (lastp : response (list entry))
    (rest : list (axios_result (list entry))) :
  market_type market = "Swap" →
  pages w = (Resolve <$> full) ++ Resolve lastp :: rest →
  Forall (λ r, status r = 200 ∧ 1000 ≤ Z.of_nat (length (data r))
               ∧ Forall valid_entry (data r)) full →
  status lastp = 200 →
  Z.of_nat (length (data lastp)) < 1000 →
  Forall valid_entry (data lastp) →
  let r := crawlBinanceFundingRate market start w in
  (∃ out,
     settled r = Fulfilled out
     ∧ out ≡ₚ (toFundingRate "Binance" market <$> flat_map data (full ++ [lastp]))
     ∧ ascending out)
  ∧ pages (world r) = rest
  ∧ events r
    = Get <$> (BinanceFundingRate (market_id market)
                 <$> (start :: ((λ p, Num (lastTime (data p) + 1000)) <$> full)))
  ∧ settled (crawlBinanceFundingRate market start (set_pages w (Resolve <$> full)))
    = Pending.
Proof.
  intros Hswap Hpages Hfull Hstatus Hshort Hvalid r.
  assert (Hr : r = crawlBinanceFundingRate_loop market start [] w
                     ((Resolve <$> full) ++ Resolve lastp :: rest)).
  { unfold r, crawlBinanceFundingRate. by rewrite Hpages. }
  rewrite (crawlBinanceFundingRate_loop_pages market w lastp rest full) in Hr by done.
  rewrite Hr. simpl. split; [|split; [done|split; [done|]]].
  - eexists. split; [done|]. split; [apply Array_sort_perm|].
    apply Array_sort_byTime_ascending, Forall_fmap, Forall_flat_map, Forall_app.
    split.
    + eapply Forall_impl; [exact Hfull|]. simpl. intros p (_ & _ & Hp).
      eapply Forall_impl; [exact Hp|]. done.
    + repeat constructor. eapply Forall_impl; [exact Hvalid|]. done.
  - apply crawlBinanceFundingRate_loop_pending; [done|].
    eapply Forall_impl; [exact Hfull|]. simpl. tauto.
Qed.

Lemma binance_pagination_witness :
  let r := crawlBinanceFundingRate binance_btc (Num 1568102400000) binance_world in
  (∃ out,
     settled r = Fulfilled out
     ∧ out ≡ₚ (toFundingRate "Binance" binance_btc
                 <$> flat_map data (binance_full ++ [binance_short]))
     ∧ ascending out)
  ∧ pages (world r) = []
  ∧ events r
    = Get <$> (BinanceFundingRate (market_id binance_btc)
                 <$> (Num 1568102400000
                        :: ((λ p, Num (lastTime (data p) + 1000)) <$> binance_full)))
  ∧ settled (crawlBinanceFundingRate binance_btc (Num 1568102400000)
               (set_pages binance_world (Resolve <$> binance_full)))
    = Pending.
Proof.
  apply (binance_pagination binance_btc (Num 1568102400000) binance_world
           binance_full binance_short []).
  - reflexivity.
  - reflexivity.
  - apply (bool_decide_unpack _). vm_compute. exact I.
  - reflexivity.
  - vm_compute. reflexivity.
  - apply (bool_decide_unpack _). vm_compute. exact I.
Defined.

(** ** Huobi *)

(** One iteration of the Huobi loop on a reply that passes both checks. *)
Lemma crawlHuobiFundingRate_loop_step market lastFundingTime acc pageIndex w r script :
  market_type market = "Swap" →
  status r = 200 →
  data_status r = "ok" →
  crawlHuobiFundingRate_loop market lastFundingTime acc pageIndex w (Resolve r :: script)
  = let fundingRates := huobiKept market lastFundingTime (data r) in
    let acc' :=
      if bool_decide (0 < Z.of_nat (length fundingRates))
      then acc ++ fundingRates else acc in
    if bool_decide (50 ≤ Z.of_nat (length fundingRates))
    then after [Get (HuobiHistoricalFundingRate (market_id market) pageIndex)]
           (crawlHuobiFundingRate_loop market lastFundingTime acc' (pageIndex + 1) w script)
    else Run (Fulfilled (Array_sort byTime acc')) (set_pages w script)
           [Get (HuobiHistoricalFundingRate (market_id market) pageIndex)].
Proof.
  intros Hswap Hstatus Hok. simpl.
  unfold crawlHuobiFundingRateOneshot. rewrite Hswap.
  change (assert_str "Swap" "Swap") with (Ok tt). cbn [fetch].
  rewrite Hstatus, Hok. reflexivity.
Qed.

Lemma huobiKept_app market lastFundingTime p1 p2 :
  huobiKept market lastFundingTime (p1 ++ p2)
  = huobiKept market lastFundingTime p1 ++ huobiKept market lastFundingTime p2.
Proof. unfold huobiKept. by rewrite fmap_app, List.filter_app. Qed.

Lemma huobiKept_length market lastFundingTime page :
  (length (huobiKept market lastFundingTime page) ≤ length page)%nat.
Proof.
  unfold huobiKept. etransitivity; [apply List.filter_length_le|].
  by rewrite length_fmap.
Qed.

Lemma append_if_nonempty {A : Type} (acc l : list A) :
  (if bool_decide (0 < Z.of_nat (length l)) then acc ++ l else acc) = acc ++ l.
Proof.
  case_bool_decide; [done|]. destruct l; [by rewrite app_nil_r | simpl in *; lia].
Qed.

Lemma page_indexes (p : Z) (n : nat) :
  (λ i : nat, p + Z.of_nat i) <$> seq 0 (S n)
  = p :: ((λ i : nat, p + 1 + Z.of_nat i) <$> seq 0 n).
Proof.
  change (seq 0 (S n)) with (0%nat :: seq 1 n).
  rewrite fmap_cons, Z.add_0_r. f_equal.
  rewrite <- fmap_S_seq, <- list_fmap_compose.
  apply list_fmap_ext. intros i k _. simpl. lia.
Qed.

(** The Huobi loop on pages that keep 50 records or more after the filter,
    followed by a page that keeps fewer than 50: one request per page, by
    increasing page index. *)
Lemma crawlHuobiFundingRate_loop_pages_kept market lastFundingTime w lastp rest full :
  market_type market = "Swap" →
  status lastp = 200 →
  data_status lastp = "ok" →
  Z.of_nat (length (huobiKept market lastFundingTime (data lastp))) < 50 →
  Forall (λ r, status r = 200 ∧ data_status r = "ok"
               ∧ 50 ≤ Z.of_nat (length (huobiKept market lastFundingTime (data r)))) full →
  ∀ pageIndex acc,
    crawlHuobiFundingRate_loop market lastFundingTime acc pageIndex w
      ((Resolve <$> full) ++ Resolve lastp :: rest)
    = Run (Fulfilled
             (Array_sort byTime
                (acc ++ huobiKept market lastFundingTime (flat_map data (full ++ [lastp])))))
          (set_pages w rest)
          (Get <$> (HuobiHistoricalFundingRate (market_id market)
                      <$> ((λ i : nat, pageIndex + Z.of_nat i) <$> seq 0 (S (length full))))).
Proof.
  intros Hswap Hlast Hok Hshort Hfull.
  induction Hfull as [|r full (Hstatus & Hrok & Hlen) _ IH]; intros pageIndex acc.
  - simpl app. rewrite crawlHuobiFundingRate_loop_step by done.
    cbv zeta. rewrite append_if_nonempty.
    rewrite bool_decide_false by lia.
    simpl. by rewrite app_nil_r, Z.add_0_r.
  - rewrite fmap_cons, <- app_comm_cons.
    rewrite crawlHuobiFundingRate_loop_step by done.
    cbv zeta. rewrite append_if_nonempty, bool_decide_true by lia.
    rewrite IH. unfold after. cbn [settled world events length].
    rewrite (page_indexes pageIndex (S (length full))), !fmap_cons.
    cbn [flat_map app]. by rewrite huobiKept_app, app_assoc.
Qed.

(** C8. On Huobi pages answered with status 200 and ['ok'], the loop asks
    for the pages 1, 2, ... in turn, goes on while a page keeps 50 records or
    more, and stops at the first page that keeps fewer than 50 once the
    records at or before [lastFundingTime] are removed (a page of fewer than
    50 items is such a page). It then fulfils: a record of the pages read is
    in the output exactly when its time is later than [lastFundingTime], so a
    record that a page brings back at or before that time is never
    accumulated; the output is ascending and the pages after the last one
    read are left unread. *)
Theorem huobi_pagination (market : Market) (lastFundingTime : number) (w : World)
    (full : list (response (list entry))) (lastp : response (list entry))
    (rest : list (axios_result (list entry))) :
  market_type market = "Swap" →
  pages w = (Resolve <$> full) ++ Resolve lastp :: rest →
  Forall (λ r, status r = 200 ∧ data_status r = "ok"
               ∧ 50 ≤ Z.of_nat (length (huobiKept market lastFundingTime (data r)))) full →
  status lastp = 200 →
  data_status lastp = "ok" →
  Z.of_nat (length (data lastp)) < 50
  ∨ Z.of_nat (length (huobiKept market lastFundingTime (data lastp))) < 50 →
  let r := crawlHuobiFundingRate market lastFundingTime w in
  (∃ out,
     settled r = Fulfilled out
     ∧ out ≡ₚ huobiKept market lastFundingTime (flat_map data (full ++ [lastp]))
     ∧ (∀ obj, obj ∈ flat_map data (full ++ [lastp]) →
          toFundingRate "Huobi" market obj ∈ out
          ↔ num_gt (timeOf (toFundingRate "Huobi" market obj)) lastFundingTime = true)
     ∧ (∀ x, x ∈ out → ∃ s, lastFundingTime = Num s ∧ s < fundingTime x)
     ∧ ascending out)
  ∧ pages (world r) = rest
  ∧ events r
    = Get <$> (HuobiHistoricalFundingRate (market_id market)
                 <$> ((λ i : nat, 1 + Z.of_nat i) <$> seq 0 (S (length full)))).
Proof.
  intros Hswap Hpages Hfull Hstatus Hok Hshort r.
  assert (Hkept : Z.of_nat (length (huobiKept market lastFundingTime (data lastp))) < 50).
  { destruct Hshort as [Hraw|?]; [|done].
    pose proof (huobiKept_length market lastFundingTime (data lastp)). lia. }
  assert (Hr : r = crawlHuobiFundingRate_loop market lastFundingTime [] 1 w
                     ((Resolve <$> full) ++ Resolve lastp :: rest)).
  { unfold r, crawlHuobiFundingRate. by rewrite Hpages. }
  rewrite (crawlHuobiFundingRate_loop_pages_kept market lastFundingTime w lastp rest full)
    in Hr by done.
  rewrite Hr. cbn [settled world events pages set_pages app].
  split; [|done].
  eexists. split; [done|]. unfold huobiKept.
  destruct (Array_sort_filter_ascending (λ rate, num_gt (timeOf rate) lastFundingTime)
              (toFundingRate "Huobi" market <$> flat_map data (full ++ [lastp])))
    as [Hasc Hall].
  { intros x Hx. by apply num_gt_timeOf in Hx as [? _]. }
  split; [apply Array_sort_perm|]. split; [|split; [|done]].
  - intros obj Hobj. split; [by intros ?%Hall|].
    intros Hgt. rewrite Array_sort_perm.
    apply list_elem_of_In, List.filter_In. split; [|done].
    apply list_elem_of_In, list_elem_of_fmap. eauto.
  - intros x Hx%Hall. by apply num_gt_timeOf in Hx as [_ ?].
Qed.

Lemma huobi_pagination_witness :
  let r := crawlHuobiFundingRate huobi_btc (Num huobi_seen) huobi_refetch_world in
  (∃ out,
     settled r = Fulfilled out
     ∧ out ≡ₚ huobiKept huobi_btc (Num huobi_seen)
                (flat_map data ([huobi_new_page] ++ [huobi_refetch_page]))
     ∧ (∀ obj, obj ∈ flat_map data ([huobi_new_page] ++ [huobi_refetch_page]) →
          toFundingRate "Huobi" huobi_btc obj ∈ out
          ↔ num_gt (timeOf (toFundingRate "Huobi" huobi_btc obj)) (Num huobi_seen) = true)
     ∧ (∀ x, x ∈ out → ∃ s, Num huobi_seen = Num s ∧ s < fundingTime x)
     ∧ ascending out)
  ∧ pages (world r) = [Resolve huobi_short]
  ∧ events r
    = Get <$> (HuobiHistoricalFundingRate (market_id huobi_btc)
                 <$> ((λ i : nat, 1 + Z.of_nat i) <$> seq 0 (S (length [huobi_new_page])))).
Proof.
  apply (huobi_pagination huobi_btc (Num huobi_seen) huobi_refetch_world
           [huobi_new_page] huobi_refetch_page [Resolve huobi_short]).
  - reflexivity.
  - reflexivity.
  - repeat constructor. vm_compute. congruence.
  - reflexivity.
  - reflexivity.
  - right. vm_compute. reflexivity.
Defined.

(** The length test of line 195 looks at the page after the filter: a page
    of 50 items of which one is already known ends the loop, and the next
    page is never asked for. *)
Lemma huobi_full_page_with_known_record_ends_loop :
  let r := crawlHuobiFundingRate huobi_btc (Num 1568102400000) huobi_world in
  pages (world r) = [Resolve huobi_short]
  ∧ events r = [Get (HuobiHistoricalFundingRate "BTC-USD" 1)]
  ∧ ∃ out, settled r = Fulfilled out ∧ length out = 49%nat.
Proof.
  vm_compute. split; [done|]. split; [done|]. eexists. split; reflexivity.
Qed.


(** ** Merging into a stored sequence *)

Lemma strictly_ascending_ascending (l : list FundingRate) :
  strictly_ascending l → ascending l.
Proof.
  unfold strictly_ascending, ascending. induction 1 as [|x l _ IH Hx]; constructor; [done|].
  eapply Forall_impl; [exact Hx|]. simpl. intros y ?. lia.
Qed.

Lemma strictly_ascending_NoDup (l : list FundingRate) :
  strictly_ascending l → NoDup (fundingTime <$> l).
Proof.
  unfold strictly_ascending. induction 1 as [|x l _ IH Hx]; csimpl; constructor; [|done].
  intros (y & Heq & Hy)%list_elem_of_fmap.
  rewrite Forall_forall in Hx. specialize (Hx y Hy). lia.
Qed.

Lemma uniqBy_history (h f : list FundingRate) :
  NoDup (fundingTime <$> h) →
  uniqBy (h ++ f) fundingTime = h ++ baseUniq fundingTime (fundingTime <$> h) f.
Proof.
  intros Hnd. unfold uniqBy. rewrite baseUniq_app, app_nil_r.
  rewrite baseUniq_id; [done | done | intros; apply not_elem_of_nil].
Qed.

(** X1. When the stored times are distinct, merging loses and replaces no stored
    record: every record of [h] is in [merge h f], and every other record of
    the result is a record of [f] at a time that [h] does not have. *)
Theorem merge_keeps_history (h f : list FundingRate) :
  NoDup (fundingTime <$> h) →
  (∀ x, x ∈ h → x ∈ merge h f)
  ∧ (∀ y, y ∈ merge h f →
       y ∈ h ∨ (y ∈ f ∧ fundingTime y ∉ fundingTime <$> h)).
Proof.
  intros Hnd. split.
  - intros x Hx. rewrite merge_perm, uniqBy_history by done. set_solver.
  - intros y. rewrite merge_perm, uniqBy_history by done.
    intros [?|Hy%elem_of_baseUniq]%elem_of_app; [by left | by right].
Qed.

Lemma merge_keeps_history_witness :
  (∀ x, x ∈ retry_history → x ∈ merge retry_history retry_data)
  ∧ (∀ y, y ∈ merge retry_history retry_data →
       y ∈ retry_history
       ∨ (y ∈ retry_data ∧ fundingTime y ∉ fundingTime <$> retry_history)).
Proof.
  apply (merge_keeps_history retry_history retry_data).
  vm_compute. repeat constructor. intros H. inversion H.
Defined.

(** X2. When the stored records followed by the fresh ones are already strictly
    ascending (everything fetched is newer than everything stored), the merge
    appends the fresh records to the stored ones. *)
Theorem merge_appends_newer (h f : list FundingRate) :
  strictly_ascending (h ++ f) → merge h f = h ++ f.
Proof.
  intros Hasc. unfold merge, uniqBy.
  rewrite baseUniq_id;
    [| by apply strictly_ascending_NoDup | intros; apply not_elem_of_nil].
  by apply sortBy_id, strictly_ascending_ascending.
Qed.

Lemma merge_appends_newer_witness :
  merge retry_history retry_data = retry_history ++ retry_data.
Proof.
  apply (merge_appends_newer retry_history retry_data).
  apply (bool_decide_unpack _). vm_compute. exact I.
Defined.

(** X3. When the stored sequence is strictly ascending and the fresh batch only
    holds times that are stored already, the merge is the stored sequence:
    a run that fetches nothing new rewrites the file with the same records. *)
Theorem merge_nothing_new (h f : list FundingRate) :
  strictly_ascending h →
  (∀ y, y ∈ f → fundingTime y ∈ fundingTime <$> h) →
  merge h f = h.
Proof.
  intros Hasc Hknown. unfold merge.
  rewrite uniqBy_history by by apply strictly_ascending_NoDup.
  rewrite baseUniq_all_seen by done. rewrite app_nil_r.
  by apply sortBy_id, strictly_ascending_ascending.
Qed.

Lemma merge_nothing_new_witness :
  merge (retry_history ++ retry_data) retry_data = retry_history ++ retry_data.
Proof.
  apply (merge_nothing_new (retry_history ++ retry_data) retry_data).
  - apply (bool_decide_unpack _). vm_compute. exact I.
  - intros y Hy. apply list_elem_of_fmap. exists y. split; [done|].
    apply elem_of_app. by right.
Defined.

(** ** The resume timestamp, on every input *)

Lemma Array_get_in_range {A : Type} (arr : list A) (i : Z) :
  0 ≤ i < Z.of_nat (length arr) → is_Some (Array_get arr i).
Proof.
  intros Hi. unfold Array_get. rewrite bool_decide_true by lia.
  apply lookup_lt_is_Some. lia.
Qed.

(** X4. The computation of the resume timestamp throws in exactly one case:
    an OKEx market whose stored sequence has a single record. *)
Theorem startTime_throws_iff (market : Market) (h : list FundingRate) :
  (∃ e, startTime market h = Throw e)
  ↔ market_exchange market = "OKEx" ∧ length h = 1%nat.
Proof.
  unfold startTime. case_bool_decide as Hlen.
  { split; [by intros [e ?] | intros [_ Hone]; rewrite Hone in Hlen; simpl in Hlen; lia]. }
  destruct (String.eqb (market_exchange market) "OKEx") eqn:Hex.
  - apply String.eqb_eq in Hex.
    destruct (decide (length h = 1%nat)) as [Hone|Hmore].
    + rewrite Hone. simpl. split; [done | eauto].
    + destruct (Array_get_in_range h (Z.of_nat (length h) - 2)) as [x ->]; [lia|].
      split; [by intros [e ?] | by intros [_ ?]].
  - apply String.eqb_neq in Hex.
    destruct (Array_get_in_range h (Z.of_nat (length h) - 1)) as [x ->]; [lia|].
    split; [by intros [e ?] | by intros [? _]].
Qed.

Lemma StronglySorted_last_max (l : list FundingRate) (x : FundingRate) :
  ascending l → last l = Some x → ∀ y, y ∈ l → fundingTime y ≤ fundingTime x.
Proof.
  unfold ascending. intros Hasc [l' ->]%last_Some y Hy.
  apply StronglySorted_app in Hasc as (Hlt & _ & _).
  apply elem_of_app in Hy as [Hy|Hy%list_elem_of_singleton]; [|subst; lia].
  apply Hlt; [done | apply list_elem_of_singleton; done].
Qed.

(** The resume timestamp one second after the last record, for a market that
    is not on OKEx. *)
Lemma startTime_last (market : Market) (h : list FundingRate) (x : FundingRate) :
  market_exchange market ≠ "OKEx" →
  last h = Some x →
  startTime market h = Ok (num_add (Date_getTime (Num (fundingTime x))) (Num 1000)).
Proof.
  intros Hex Hlast. unfold startTime.
  assert (Hlen : (0 < length h)%nat) by (destruct h; [done | simpl; lia]).
  rewrite bool_decide_false by lia.
  apply String.eqb_neq in Hex. rewrite Hex.
  by rewrite (Array_get_last h x Hlast).
Qed.

(** X5. After a merge, a market that is not on OKEx resumes one second after
    the latest time known: the resume timestamp computed from [merge h f] is
    [T + 1000] for a [T] that is the time of a record of [h] or [f] and that
    no record of [h] or [f] exceeds. *)
Theorem startTime_after_merge (market : Market) (h f : list FundingRate) :
  market_exchange market ≠ "OKEx" →
  h ++ f ≠ [] →
  Forall valid_time (h ++ f) →
  ∃ x, x ∈ h ++ f
    ∧ startTime market (merge h f) = Ok (Num (fundingTime x + 1000))
    ∧ ∀ y, y ∈ h ++ f → fundingTime y ≤ fundingTime x.
Proof.
  intros Hex Hne Hvalid.
  assert (Hsub : ∀ x, x ∈ merge h f → x ∈ h ++ f).
  { intros x. rewrite merge_perm. by intros [? _]%elem_of_baseUniq. }
  destruct (last (merge h f)) as [x|] eqn:Hlast.
  2:{ apply last_None_nil in Hlast. destruct (h ++ f) as [|z l] eqn:Hl; [done|].
      destruct (merge_covers h f z) as (y & Hy & _); [rewrite Hl; left|].
      rewrite Hlast in Hy. by apply elem_of_nil in Hy. }
  assert (Hx : x ∈ merge h f) by by eapply last_Some_elem_of.
  exists x. split; [by apply Hsub|]. split.
  - rewrite (startTime_last market _ x Hex Hlast), Date_getTime_valid; [done|].
    rewrite Forall_forall in Hvalid. by apply Hvalid, Hsub.
  - intros y (y' & Hy' & <-)%merge_covers.
    by apply (StronglySorted_last_max (merge h f) x (merge_sorted h f) Hlast).
Qed.

Lemma startTime_after_merge_witness :
  ∃ x, x ∈ retry_history ++ retry_data
    ∧ startTime binance_btc (merge retry_history retry_data)
      = Ok (Num (fundingTime x + 1000))
    ∧ ∀ y, y ∈ retry_history ++ retry_data → fundingTime y ≤ fundingTime x.
Proof.
  apply (startTime_after_merge binance_btc retry_history retry_data).
  - vm_compute. congruence.
  - vm_compute. congruence.
  - apply (bool_decide_unpack _). vm_compute. exact I.
Defined.
(** ** The crawlers leave the file store alone *)

Lemma crawlBinanceFundingRate_loop_world market w script :
  ∀ st acc, ∃ p, world (crawlBinanceFundingRate_loop market st acc w script) = set_pages w p.
Proof.
  induction script as [|reply script IH]; intros st acc; simpl.
  - destruct (crawlBinanceFundingRateOneshot market st); simpl; eauto.
  - destruct (crawlBinanceFundingRateOneshot market st) as [e|req k]; simpl; [eauto|].
    destruct (k reply) as [fundingRates|e]; simpl; [|eauto].
    destruct (last fundingRates); case_bool_decide; simpl; eauto.
Qed.

Lemma crawlBitMEXFundingRate_loop_world market w script :
  ∀ st acc, ∃ p, world (crawlBitMEXFundingRate_loop market st acc w script) = set_pages w p.
Proof.
  induction script as [|reply script IH]; intros st acc; simpl.
  - destruct (crawlBitMEXFundingRateOneshot market st); simpl; eauto.
  - destruct (crawlBitMEXFundingRateOneshot market st) as [e|req k]; simpl; [eauto|].
    destruct (k reply) as [fundingRates|e]; simpl; [|eauto].
    destruct (last fundingRates); case_bool_decide; simpl; eauto.
Qed.

Lemma crawlHuobiFundingRate_loop_world market lastFundingTime w script :
  ∀ pageIndex acc,
    ∃ p, world (crawlHuobiFundingRate_loop market lastFundingTime acc pageIndex w script)
         = set_pages w p.
Proof.
  induction script as [|reply script IH]; intros pageIndex acc; simpl.
  - destruct (crawlHuobiFundingRateOneshot market pageIndex); simpl; eauto.
  - destruct (crawlHuobiFundingRateOneshot market pageIndex) as [e|req k]; simpl; [eauto|].
    destruct (k reply) as [fetched|e]; simpl; [|eauto].
    case_bool_decide; simpl; eauto.
Qed.

Lemma files_perform {A : Type} (o : oneshot (list entry) A) (w : World) :
  files (world (perform o w)) = files w.
Proof.
  unfold perform. destruct o as [e|req k]; [done|].
  destruct (pages w) as [|reply script]; [done|]. by destruct (k reply).
Qed.

Lemma files_perform_current {A : Type} (o : oneshot entry A) (w : World) :
  files (world (perform_current o w)) = files w.
Proof.
  unfold perform_current. destruct o as [e|req k]; [done|].
  destruct (currents w) as [|reply script]; [done|]. by destruct (k reply).
Qed.

Lemma files_crawlOKExFundingRate market start w :
  files (world (crawlOKExFundingRate market start w)) = files w.
Proof.
  unfold crawlOKExFundingRate.
  destruct (settled (perform _ w)); simpl; try apply files_perform.
  destruct (settled (perform_current _ _)); simpl;
    by rewrite files_perform_current, files_perform.
Qed.

Lemma files_crawlFunc exch crawl market start w :
  crawlFunc exch = Ok crawl → files (world (crawl market start w)) = files w.
Proof.
  unfold crawlFunc. repeat (case_match; [intros [= <-]|]); [..|done].
  - destruct (crawlBinanceFundingRate_loop_world market w (pages w) start []) as [p Hp].
    unfold crawlBinanceFundingRate. by rewrite Hp.
  - destruct (crawlBitMEXFundingRate_loop_world market w (pages w) start []) as [p Hp].
    unfold crawlBitMEXFundingRate. by rewrite Hp.
  - destruct (crawlHuobiFundingRate_loop_world market start w (pages w) 1 []) as [p Hp].
    unfold crawlHuobiFundingRate. by rewrite Hp.
  - apply files_crawlOKExFundingRate.
Qed.


(** ** What every crawler does and does not do *)

Lemma perform_fulfilled {A : Type} (o : oneshot (list entry) A) (w : World) (a : A) :
  settled (perform o w) = Fulfilled a →
  ∃ req k reply script,
    o = Await req k ∧ pages w = reply :: script ∧ k reply = Ok a.
Proof.
  unfold perform. destruct o as [e|req k]; [done|].
  destruct (pages w) as [|reply script]; [done|].
  destruct (k reply) as [a'|e] eqn:Hk; [|done].
  intros [= <-]. by exists req, k, reply, script.
Qed.

Lemma perform_current_fulfilled {A : Type} (o : oneshot entry A) (w : World) (a : A) :
  settled (perform_current o w) = Fulfilled a →
  ∃ req k reply script,
    o = Await req k ∧ currents w = reply :: script ∧ k reply = Ok a.
Proof.
  unfold perform_current. destruct o as [e|req k]; [done|].
  destruct (currents w) as [|reply script]; [done|].
  destruct (k reply) as [a'|e] eqn:Hk; [|done].
  intros [= <-]. by exists req, k, reply, script.
Qed.

(** A fulfilled OKEx crawl sorts what passes the time test among the
    records of one history reply and one current-rate reply. *)
Lemma crawlOKExFundingRate_fulfilled_records market start w out :
  settled (crawlOKExFundingRate market start w) = Fulfilled out →
  ∃ (es : list entry) (c : entry),
    out = Array_sort byTime
            (List.filter (λ x, num_ge (timeOf x) start)
               ((toFundingRate "OKEx" market <$> es) ++ [toFundingRate "OKEx" market c])).
Proof.
  unfold crawlOKExFundingRate.
  destruct (settled (perform _ w)) as [fundingRateHistory| |] eqn:Hh; [|done..].
  destruct (settled (perform_current _ _)) as [fundingRateCurrent| |] eqn:Hc; [|done..].
  simpl. intros [= <-].
  apply perform_fulfilled in Hh as (req & k & reply & script & Hone & _ & Hk).
  apply fetch_inv in Hone as [_ Hone].
  destruct (Hone _ _ Hk) as (r & _ & Hr).
  apply bind_ok_inv in Hr as ([] & _ & [= <-]).
  apply perform_current_fulfilled in Hc as (req' & k' & reply' & script' & Hone' & _ & Hk').
  apply fetch_inv in Hone' as [_ Hone'].
  destruct (Hone' _ _ Hk') as (r' & _ & Hr').
  apply bind_ok_inv in Hr' as ([] & _ & [= <-]).
  by exists (data r), (data r').
Qed.

(** X6. Every record a fulfilled crawl returns carries the name of the
    exchange whose crawler produced it, the pair of the market and, as raw
    pair, the market's id. *)
Theorem crawl_output_provenance (exch : string) (crawl : crawlFunc_t) (market : Market)
    (start : number) (w : World) (out : list FundingRate) :
  crawlFunc exch = Ok crawl →
  settled (crawl market start w) = Fulfilled out →
  ∀ x, x ∈ out →
    exchange x = exch ∧ pair x = market_pair market ∧ rawPair x = market_id market.
Proof.
  intros Hcrawl Hout x Hx.
  assert (Hmade : ∀ l : list entry, x ∈ toFundingRate exch market <$> l →
    exchange x = exch ∧ pair x = market_pair market ∧ rawPair x = market_id market).
  { by intros l (obj & -> & _)%list_elem_of_fmap. }
  unfold crawlFunc in Hcrawl.
  destruct (String.eqb exch "Binance") eqn:E1.
  { apply String.eqb_eq in E1 as ->. injection Hcrawl as <-.
    apply crawlBinanceFundingRate_loop_fulfilled in Hout as (consumed & _ & ->).
    rewrite Array_sort_perm in Hx. by eapply Hmade. }
  destruct (String.eqb exch "BitMEX") eqn:E2.
  { apply String.eqb_eq in E2 as ->. injection Hcrawl as <-.
    apply crawlBitMEXFundingRate_loop_fulfilled in Hout as (consumed & _ & ->).
    rewrite Array_sort_perm in Hx. by eapply Hmade. }
  destruct (String.eqb exch "Huobi") eqn:E3.
  { apply String.eqb_eq in E3 as ->. injection Hcrawl as <-.
    apply crawlHuobiFundingRate_loop_fulfilled in Hout as (consumed & _ & ->).
    rewrite Array_sort_perm in Hx. simpl in Hx.
    apply list_elem_of_In, List.filter_In in Hx as [Hx%list_elem_of_In _].
    by eapply Hmade. }
  destruct (String.eqb exch "OKEx") eqn:E4; [|done].
  apply String.eqb_eq in E4 as ->. injection Hcrawl as <-.
  apply crawlOKExFundingRate_fulfilled_records in Hout as (es & c & ->).
  rewrite Array_sort_perm in Hx.
  apply list_elem_of_In, List.filter_In in Hx as [Hx%list_elem_of_In _].
  apply (Hmade (es ++ [c])). by rewrite fmap_app.
Qed.

Lemma crawl_output_provenance_witness :
  ∃ out,
    settled (crawlOKExFundingRate okex_btc (Num 2000) okex_world) = Fulfilled out
    ∧ ∀ x, x ∈ out →
        exchange x = "OKEx" ∧ pair x = market_pair okex_btc
        ∧ rawPair x = market_id okex_btc.
Proof.
  eexists. split; [reflexivity|].
  eapply (crawl_output_provenance "OKEx" crawlOKExFundingRate okex_btc (Num 2000)
            okex_world); reflexivity.
Defined.

Lemma is_Get_Get (req : request) : is_Get (Get req).
Proof. by exists req. Qed.

Lemma crawlBinanceFundingRate_loop_requests market w script :
  ∀ st acc,
    Forall is_Get (events (crawlBinanceFundingRate_loop market st acc w script))
    ∧ ∃ consumed,
        script = consumed
                 ++ pages (world (crawlBinanceFundingRate_loop market st acc w script)).
Proof.
  induction script as [|reply script IH]; intros st acc; simpl.
  - destruct (crawlBinanceFundingRateOneshot market st); simpl;
      (split; [repeat constructor; apply is_Get_Get | by exists []]).
  - destruct (crawlBinanceFundingRateOneshot market st) as [e|req k]; simpl;
      [split; [constructor | by exists []]|].
    destruct (k reply) as [fundingRates|e]; simpl;
      [|split; [repeat constructor; apply is_Get_Get | by exists [reply]]].
    destruct (last fundingRates); case_bool_decide; simpl;
      try (split; [repeat constructor; apply is_Get_Get | by exists [reply]]);
      (match goal with
       | |- context [crawlBinanceFundingRate_loop _ ?s ?a _ _] =>
           destruct (IH s a) as [Hev [consumed Hc]]
       end;
       split; [constructor; [apply is_Get_Get | done]
              | exists (reply :: consumed); by rewrite <- app_comm_cons, <- Hc]).
Qed.

Lemma crawlBitMEXFundingRate_loop_requests market w script :
  ∀ st acc,
    Forall is_Get (events (crawlBitMEXFundingRate_loop market st acc w script))
    ∧ ∃ consumed,
        script = consumed
                 ++ pages (world (crawlBitMEXFundingRate_loop market st acc w script)).
Proof.
  induction script as [|reply script IH]; intros st acc; simpl.
  - destruct (crawlBitMEXFundingRateOneshot market st); simpl;
      (split; [repeat constructor; apply is_Get_Get | by exists []]).
  - destruct (crawlBitMEXFundingRateOneshot market st) as [e|req k]; simpl;
      [split; [constructor | by exists []]|].
    destruct (k reply) as [fundingRates|e]; simpl;
      [|split; [repeat constructor; apply is_Get_Get | by exists [reply]]].
    destruct (last fundingRates); case_bool_decide; simpl;
      try (split; [repeat constructor; apply is_Get_Get | by exists [reply]]);
      (match goal with
       | |- context [crawlBitMEXFundingRate_loop _ ?s ?a _ _] =>
           destruct (IH s a) as [Hev [consumed Hc]]
       end;
       split; [constructor; [apply is_Get_Get | done]
              | exists (reply :: consumed); by rewrite <- app_comm_cons, <- Hc]).
Qed.

Lemma crawlHuobiFundingRate_loop_requests market lastFundingTime w script :
  ∀ pageIndex acc,
    Forall is_Get
      (events (crawlHuobiFundingRate_loop market lastFundingTime acc pageIndex w script))
    ∧ ∃ consumed,
        script = consumed
                 ++ pages (world (crawlHuobiFundingRate_loop market lastFundingTime acc
                                    pageIndex w script)).
Proof.
  induction script as [|reply script IH]; intros pageIndex acc; simpl.
  - destruct (crawlHuobiFundingRateOneshot market pageIndex); simpl;
      (split; [repeat constructor; apply is_Get_Get | by exists []]).
  - destruct (crawlHuobiFundingRateOneshot market pageIndex) as [e|req k]; simpl;
      [split; [constructor | by exists []]|].
    destruct (k reply) as [fetched|e]; simpl;
      [|split; [repeat constructor; apply is_Get_Get | by exists [reply]]].
    case_bool_decide; simpl;
      try (split; [repeat constructor; apply is_Get_Get | by exists [reply]]);
      (match goal with
       | |- context [crawlHuobiFundingRate_loop _ _ ?a ?p _ _] =>
           destruct (IH p a) as [Hev [consumed Hc]]
       end;
       split; [constructor; [apply is_Get_Get | done]
              | exists (reply :: consumed); by rewrite <- app_comm_cons, <- Hc]).
Qed.

Lemma perform_frame {A : Type} (o : oneshot (list entry) A) (w : World) :
  Forall is_Get (events (perform o w))
  ∧ files (world (perform o w)) = files w
  ∧ dirs (world (perform o w)) = dirs w
  ∧ currents (world (perform o w)) = currents w
  ∧ ∃ consumed, pages w = consumed ++ pages (world (perform o w)).
Proof.
  unfold perform. destruct o as [e|req k]; simpl.
  { repeat split; [constructor | by exists []]. }
  destruct (pages w) as [|reply script] eqn:Hp; simpl.
  { repeat split; [repeat constructor; apply is_Get_Get | exists []; by rewrite Hp]. }
  destruct (k reply); simpl;
    (repeat split; [repeat constructor; apply is_Get_Get | by exists [reply]]).
Qed.

Lemma perform_current_frame {A : Type} (o : oneshot entry A) (w : World) :
  Forall is_Get (events (perform_current o w))
  ∧ files (world (perform_current o w)) = files w
  ∧ dirs (world (perform_current o w)) = dirs w
  ∧ pages (world (perform_current o w)) = pages w
  ∧ ∃ consumed, currents w = consumed ++ currents (world (perform_current o w)).
Proof.
  unfold perform_current. destruct o as [e|req k]; simpl.
  { repeat split; [constructor | by exists []]. }
  destruct (currents w) as [|reply script] eqn:Hp; simpl.
  { repeat split; [repeat constructor; apply is_Get_Get | exists []; by rewrite Hp]. }
  destruct (k reply); simpl;
    (repeat split; [repeat constructor; apply is_Get_Get | by exists [reply]]).
Qed.

Lemma crawlOKExFundingRate_frame market start w :
  let r := crawlOKExFundingRate market start w in
  Forall is_Get (events r)
  ∧ files (world r) = files w
  ∧ dirs (world r) = dirs w
  ∧ (∃ consumed, pages w = consumed ++ pages (world r))
  ∧ (∃ consumed, currents w = consumed ++ currents (world r)).
Proof.
  unfold crawlOKExFundingRate.
  destruct (perform_frame (crawlOKExFundingRateHistory market) w)
    as (Hev & Hf & Hd & Hc & Hp).
  set (h := perform (crawlOKExFundingRateHistory market) w) in *.
  destruct (perform_current_frame (crawlOKExFundingRateCurrent market) (world h))
    as (Hev' & Hf' & Hd' & Hp' & Hc').
  set (c := perform_current (crawlOKExFundingRateCurrent market) (world h)) in *.
  assert (Hall : Forall is_Get (events h ++ events c)) by by apply Forall_app.
  assert (Hfc : files (world c) = files w) by congruence.
  assert (Hdc : dirs (world c) = dirs w) by congruence.
  assert (Hpc : ∃ consumed, pages w = consumed ++ pages (world c)) by by rewrite Hp'.
  assert (Hcc : ∃ consumed, currents w = consumed ++ currents (world c))
    by by rewrite <- Hc.
  assert (Hch : ∃ consumed, currents w = consumed ++ currents (world h))
    by (exists []; by rewrite Hc).
  destruct (settled h); simpl; [|done..].
  destruct (settled c); simpl; done.
Qed.

Lemma set_pages_frame (w w' : World) (p : list (axios_result (list entry))) :
  w' = set_pages w p →
  files w' = files w ∧ dirs w' = dirs w ∧ currents w = [] ++ currents w'.
Proof. by intros ->. Qed.

(** X7. A crawler only talks to the exchange: whatever the replies, its
    events are requests (it prints nothing and sets no timer), it leaves
    files and directories as they are, and what is left of the scripted
    replies is a suffix of what it was given. *)
Theorem crawl_only_requests (exch : string) (crawl : crawlFunc_t) (market : Market)
    (start : number) (w : World) :
  crawlFunc exch = Ok crawl →
  let r := crawl market start w in
  Forall is_Get (events r)
  ∧ files (world r) = files w
  ∧ dirs (world r) = dirs w
  ∧ (∃ consumed, pages w = consumed ++ pages (world r))
  ∧ (∃ consumed, currents w = consumed ++ currents (world r)).
Proof.
  unfold crawlFunc. repeat (case_match; [intros [= <-]|]); [..|done]; cbv zeta.
  - destruct (crawlBinanceFundingRate_loop_requests market w (pages w) start []) as [? ?].
    destruct (crawlBinanceFundingRate_loop_world market w (pages w) start []) as [p Hp].
    apply set_pages_frame in Hp as (? & ? & ?). unfold crawlBinanceFundingRate. eauto 10.
  - destruct (crawlBitMEXFundingRate_loop_requests market w (pages w) start []) as [? ?].
    destruct (crawlBitMEXFundingRate_loop_world market w (pages w) start []) as [p Hp].
    apply set_pages_frame in Hp as (? & ? & ?). unfold crawlBitMEXFundingRate. eauto 10.
  - destruct (crawlHuobiFundingRate_loop_requests market start w (pages w) 1 []) as [? ?].
    destruct (crawlHuobiFundingRate_loop_world market start w (pages w) 1 []) as [p Hp].
    apply set_pages_frame in Hp as (? & ? & ?). unfold crawlHuobiFundingRate. eauto 10.
  - apply crawlOKExFundingRate_frame.
Qed.

Lemma crawl_only_requests_witness :
  let r := crawlOKExFundingRate okex_btc (Num 2000) okex_world in
  Forall is_Get (events r)
  ∧ files (world r) = files okex_world
  ∧ dirs (world r) = dirs okex_world
  ∧ (∃ consumed, pages okex_world = consumed ++ pages (world r))
  ∧ (∃ consumed, currents okex_world = consumed ++ currents (world r)).
Proof.
  apply (crawl_only_requests "OKEx" crawlOKExFundingRate okex_btc (Num 2000) okex_world).
  reflexivity.
Defined.

(** ** A market that is not a swap market *)

Lemma set_pages_same (w : World) : set_pages w (pages w) = w.
Proof. by destruct w. Qed.

Lemma assert_str_ne (actual expected : string) :
  actual ≠ expected →
  assert_str actual expected = Throw (AssertionError (VStr actual) (VStr expected)).
Proof.
  intros Hne%String.eqb_neq. unfold assert_str, assert_strictEqual. by rewrite Hne.
Qed.

(** X8. For a market whose type is not ['Swap'] the first assertion of every
    function fails: [crawlFundingRates] and each crawler reject with the
    assertion error before any request, and leave the world as it was (no
    directory is made, nothing is printed). *)
Theorem not_swap_rejected (market : Market) (w : World) :
  market_type market ≠ "Swap" →
  (∀ fuel, crawlFundingRates fuel market w = Run (Rejected (swap_assertion market)) w [])
  ∧ (∀ exch crawl start,
       crawlFunc exch = Ok crawl →
       crawl market start w = Run (Rejected (swap_assertion market)) w []).
Proof.
  intros Hne. pose proof (assert_str_ne _ _ Hne) as Hassert. split.
  { intros fuel. unfold crawlFundingRates. by rewrite Hassert. }
  intros exch crawl start.
  unfold crawlFunc. repeat (case_match; [intros [= <-]|]); [..|done].
  - unfold crawlBinanceFundingRate.
    destruct (pages w) as [|reply script] eqn:Hp; simpl;
      unfold crawlBinanceFundingRateOneshot; rewrite Hassert; simpl;
      by rewrite <- Hp, set_pages_same.
  - unfold crawlBitMEXFundingRate.
    destruct (pages w) as [|reply script] eqn:Hp; simpl;
      unfold crawlBitMEXFundingRateOneshot; rewrite Hassert; simpl;
      by rewrite <- Hp, set_pages_same.
  - unfold crawlHuobiFundingRate.
    destruct (pages w) as [|reply script] eqn:Hp; simpl;
      unfold crawlHuobiFundingRateOneshot; rewrite Hassert; simpl;
      by rewrite <- Hp, set_pages_same.
  - unfold crawlOKExFundingRate, perform, crawlOKExFundingRateHistory.
    by rewrite Hassert.
Qed.

Lemma not_swap_rejected_witness :
  (∀ fuel, crawlFundingRates fuel spot_btc retry_world
           = Run (Rejected (swap_assertion spot_btc)) retry_world [])
  ∧ (∀ exch crawl start,
       crawlFunc exch = Ok crawl →
       crawl spot_btc start retry_world
       = Run (Rejected (swap_assertion spot_btc)) retry_world []).
Proof.
  apply (not_swap_rejected spot_btc retry_world). vm_compute. congruence.
Defined.

(** ** A reply that fails inside the Binance loop *)

Lemma crawlBinanceFundingRate_loop_fails market w bad rest e full :
  market_type market = "Swap" →
  (bad = Reject e
   ∨ ∃ r, bad = Resolve r ∧ status r ≠ 200
          ∧ e = AssertionError (VNum (status r)) (VNum 200)) →
  Forall (λ r, status r = 200 ∧ 1000 ≤ Z.of_nat (length (data r))) full →
  ∀ st acc,
    let r := crawlBinanceFundingRate_loop market st acc w ((Resolve <$> full) ++ bad :: rest) in
    settled r = Rejected e ∧ world r = set_pages w rest
    ∧ length (events r) = S (length full).
Proof.
  intros Hswap Hbad Hfull.
  induction Hfull as [|r full (Hstatus & Hlen) _ IH]; intros st acc.
  - simpl. unfold crawlBinanceFundingRateOneshot. rewrite Hswap.
    change (assert_str "Swap" "Swap") with (Ok tt). cbn [fetch].
    destruct Hbad as [->|(r & -> & Hstatus & ->)]; [done|].
    unfold assert_num, assert_strictEqual. by rewrite bool_decide_false.
  - rewrite fmap_cons, <- app_comm_cons.
    rewrite crawlBinanceFundingRate_loop_step by done.
    cbv zeta. rewrite length_fmap, bool_decide_true by lia.
    destruct (last _); unfold after; cbn [settled world events length app];
      match goal with
      | |- context [crawlBinanceFundingRate_loop _ ?s ?a _ _] =>
          destruct (IH s a) as (-> & -> & ->)
      end; done.
Qed.

(** X9. When, after any number of full pages, a Binance request is rejected
    or answered with a status other than 200, the crawl rejects with that
    error (the rejection reason, or the assertion error on the status): the
    pages fetched before are not returned, and the replies after the failing
    one are left unread. *)
Theorem binance_failure_propagates (market : Market) (start : number) (w : World)
    (full : list (response (list entry))) (bad : axios_result (list entry))
    (rest : list (axios_result (list entry))) (e : Error) :
  market_type market = "Swap" →
  pages w = (Resolve <$> full) ++ bad :: rest →
  Forall (λ r, status r = 200 ∧ 1000 ≤ Z.of_nat (length (data r))) full →
  (bad = Reject e
   ∨ ∃ r, bad = Resolve r ∧ status r ≠ 200
          ∧ e = AssertionError (VNum (status r)) (VNum 200)) →
  let r := crawlBinanceFundingRate market start w in
  settled r = Rejected e
  ∧ pages (world r) = rest
  ∧ length (events r) = S (length full).
Proof.
  intros Hswap Hpages Hfull Hbad r. unfold r, crawlBinanceFundingRate. rewrite Hpages.
  destruct (crawlBinanceFundingRate_loop_fails market w bad rest e full Hswap Hbad Hfull
              start []) as (-> & -> & ->).
  done.
Qed.

Lemma binance_failure_propagates_witness :
  let r := crawlBinanceFundingRate binance_btc (Num 1568102400000) binance_broken_world in
  settled r = Rejected (AssertionError (VNum 204) (VNum 200))
  ∧ pages (world r) = [Resolve binance_short]
  ∧ length (events r) = S (length binance_full).
Proof.
  apply (binance_failure_propagates binance_btc (Num 1568102400000) binance_broken_world
           binance_full (Resolve (mkResponse 204 "No Content" "" []))
           [Resolve binance_short]).
  - reflexivity.
  - reflexivity.
  - repeat constructor. vm_compute. congruence.
  - right. eexists. split; [reflexivity|]. split; [vm_compute; congruence | reflexivity].
Defined.

(** ** BitMEX pagination *)

Lemma Date_toISOString_valid (z : Z) :
  Z.abs z ≤ MAX_TIME → Date_toISOString (Num z) = Ok z.
Proof. intros Hz. unfold Date_toISOString, TimeClip. by rewrite bool_decide_true. Qed.

(** One iteration of the BitMEX loop on a reply that passes both checks. *)
Lemma crawlBitMEXFundingRate_loop_step market z acc w r script :
  market_type market = "Swap" →
  Z.abs z ≤ MAX_TIME →
  status r = 200 →
  statusText r = "OK" →
  crawlBitMEXFundingRate_loop market (Num z) acc w (Resolve r :: script)
  = let fundingRates := toFundingRate "BitMEX" market <$> data r in
    let '(acc', st') :=
      match last fundingRates with
      | Some x => (acc ++ fundingRates, num_add (timeOf x) (Num 3600000))
      | None => (acc, Num z)
      end in
    if bool_decide (500 ≤ Z.of_nat (length fundingRates))
    then after [Get (BitMEXFunding (market_baseId market) z)]
           (crawlBitMEXFundingRate_loop market st' acc' w script)
    else Run (Fulfilled (Array_sort byTime acc')) (set_pages w script)
           [Get (BitMEXFunding (market_baseId market) z)].
Proof.
  intros Hswap Hz Hstatus Htext. simpl.
  unfold crawlBitMEXFundingRateOneshot. rewrite Hswap.
  change (assert_str "Swap" "Swap") with (Ok tt).
  change (Ok tt ≫= λ _ : (), Date_toISOString (Num z)) with (Date_toISOString (Num z)).
  rewrite Date_toISOString_valid by done. cbn [fetch].
  rewrite Hstatus, Htext. reflexivity.
Qed.

Lemma crawlBitMEXFundingRate_loop_pages market w lastp rest full :
  market_type market = "Swap" →
  status lastp = 200 →
  statusText lastp = "OK" →
  Z.of_nat (length (data lastp)) < 500 →
  Forall (λ r, status r = 200 ∧ statusText r = "OK"
               ∧ 500 ≤ Z.of_nat (length (data r))
               ∧ Forall valid_entry (data r)
               ∧ Z.abs (lastTime (data r) + 3600000) ≤ MAX_TIME) full →
  ∀ z acc,
    Z.abs z ≤ MAX_TIME →
    crawlBitMEXFundingRate_loop market (Num z) acc w
      ((Resolve <$> full) ++ Resolve lastp :: rest)
    = Run (Fulfilled
             (Array_sort byTime
                (acc ++ (toFundingRate "BitMEX" market
                           <$> flat_map data (full ++ [lastp])))))
          (set_pages w rest)
          (Get <$> (BitMEXFunding (market_baseId market)
                      <$> (z :: ((λ r, lastTime (data r) + 3600000) <$> full)))).
Proof.
  intros Hswap Hlast Htext Hshort Hfull.
  induction Hfull as [|r full (Hstatus & Hrtext & Hlen & Hvalid & Hnext) _ IH];
    intros z acc Hz.
  - simpl app. rewrite crawlBitMEXFundingRate_loop_step by done.
    cbv zeta. rewrite length_fmap, bool_decide_false by lia.
    simpl flat_map. rewrite app_nil_r. rewrite fmap_last.
    destruct (last (data lastp)) as [obj|] eqn:Hobj; simpl; [done|].
    by rewrite (last_None_nil _ Hobj), app_nil_r.
  - rewrite fmap_cons, <- app_comm_cons.
    rewrite crawlBitMEXFundingRate_loop_step by done.
    cbv zeta. rewrite length_fmap, bool_decide_true by lia.
    rewrite fmap_last.
    destruct (last_is_Some (data r)) as [obj Hobj]; [lia|].
    rewrite Hobj. cbn [fmap option_fmap option_map].
    rewrite timeOf_valid.
    2:{ apply valid_time_toFundingRate. rewrite Forall_forall in Hvalid.
        apply Hvalid. by eapply last_Some_elem_of. }
    cbn [num_add toFundingRate fundingTime].
    rewrite <- (last_lastTime _ _ Hobj).
    rewrite IH by done. unfold after. cbn [settled world events].
    rewrite !fmap_cons. cbn [flat_map app].
    by rewrite fmap_app, app_assoc.
Qed.

(** X10. The BitMEX loop, started from a valid date, on pages of 500 items
    (or more) followed by a page of fewer than 500: it fulfils, having
    consumed exactly these pages; its requests start at [start] and then at
    the time of the last item of the previous page plus one hour
    (3600000 ms), under the market's [baseId]; its output holds the records of
    all these pages, ascending by [fundingTime]. *)
Theorem bitmex_pagination (market : Market) (start : Z) (w : World)
    (full : list (response (list entry))) (lastp : response (list entry))
    (rest : list (axios_result (list entry))) :
  market_type market = "Swap" →
  Z.abs start ≤ MAX_TIME →
  pages w = (Resolve <$> full) ++ Resolve lastp :: rest →
  Forall (λ r, status r = 200 ∧ statusText r = "OK"
               ∧ 500 ≤ Z.of_nat (length (data r))
               ∧ Forall valid_entry (data r)
               ∧ Z.abs (lastTime (data r) + 3600000) ≤ MAX_TIME) full →
  status lastp = 200 →
  statusText lastp = "OK" →
  Z.of_nat (length (data lastp)) < 500 →
  Forall valid_entry (data lastp) →
  let r := crawlBitMEXFundingRate market (Num start) w in
  (∃ out,
     settled r = Fulfilled out
     ∧ out ≡ₚ (toFundingRate "BitMEX" market <$> flat_map data (full ++ [lastp]))
     ∧ ascending out)
  ∧ pages (world r) = rest
  ∧ events r
    = Get <$> (BitMEXFunding (market_baseId market)
                 <$> (start :: ((λ p, lastTime (data p) + 3600000) <$> full))).
Proof.
  intros Hswap Hstart Hpages Hfull Hstatus Htext Hshort Hvalid r.
  assert (Hr : r = crawlBitMEXFundingRate_loop market (Num start) [] w
                     ((Resolve <$> full) ++ Resolve lastp :: rest)).
  { unfold r, crawlBitMEXFundingRate. by rewrite Hpages. }
  rewrite (crawlBitMEXFundingRate_loop_pages market w lastp rest full) in Hr by done.
  rewrite Hr. simpl. split; [|done].
  eexists. split; [done|]. split; [apply Array_sort_perm|].
  apply Array_sort_byTime_ascending, Forall_fmap, Forall_flat_map, Forall_app.
  split.
  - eapply Forall_impl; [exact Hfull|]. simpl. intros p (_ & _ & _ & Hp & _).
    eapply Forall_impl; [exact Hp|]. done.
  - repeat constructor. eapply Forall_impl; [exact Hvalid|]. done.
Qed.

Lemma bitmex_pagination_witness :
  let r := crawlBitMEXFundingRate bitmex_btc (Num 1568088000000) bitmex_world in
  (∃ out,
     settled r = Fulfilled out
     ∧ out ≡ₚ (toFundingRate "BitMEX" bitmex_btc
                 <$> flat_map data (bitmex_full ++ [bitmex_short]))
     ∧ ascending out)
  ∧ pages (world r) = []
  ∧ events r
    = Get <$> (BitMEXFunding (market_baseId bitmex_btc)
                 <$> (1568088000000
                        :: ((λ p, lastTime (data p) + 3600000) <$> bitmex_full))).
Proof.
  apply (bitmex_pagination bitmex_btc 1568088000000 bitmex_world
           bitmex_full bitmex_short []).
  - reflexivity.
  - vm_compute. congruence.
  - reflexivity.
  - apply (bool_decide_unpack _). vm_compute. exact I.
  - reflexivity.
  - reflexivity.
  - vm_compute. reflexivity.
  - apply (bool_decide_unpack _). vm_compute. exact I.
Defined.

(** ** OKEx: two requests *)

Lemma assert_num_ne (actual expected : Z) :
  actual ≠ expected →
  assert_num actual expected = Throw (AssertionError (VNum actual) (VNum expected)).
Proof.
  intros Hne. unfold assert_num, assert_strictEqual. by rewrite bool_decide_false.
Qed.

Lemma assert_num_eq (z : Z) : assert_num z z = Ok tt.
Proof. unfold assert_num, assert_strictEqual. by rewrite bool_decide_true. Qed.

(** X11. An OKEx crawl whose two requests are answered with status 200 asks
    for the history and then for the current rate, and returns, ascending,
    the records of both that are not before [startTime]: the current-rate
    record is in the output exactly when its time passes that test. Nothing
    is deduplicated at this point. *)
Theorem okex_crawl (market : Market) (start : number) (w : World)
    (h : response (list entry)) (c : response entry)
    (rest : list (axios_result (list entry))) (rest' : list (axios_result entry)) :
  market_type market = "Swap" →
  pages w = Resolve h :: rest →
  currents w = Resolve c :: rest' →
  status h = 200 →
  status c = 200 →
  let r := crawlOKExFundingRate market start w in
  let current := toFundingRate "OKEx" market (data c) in
  (∃ out,
     settled r = Fulfilled out
     ∧ out ≡ₚ List.filter (λ x, num_ge (timeOf x) start)
                ((toFundingRate "OKEx" market <$> data h) ++ [current])
     ∧ ascending out
     ∧ (current ∈ out ↔ num_ge (timeOf current) start = true))
  ∧ pages (world r) = rest
  ∧ currents (world r) = rest'
  ∧ events r = [Get (OKExHistoricalFundingRate (market_id market));
                Get (OKExFundingTime (market_id market))].
Proof.
  intros Hswap Hpages Hcurrents Hh Hc r current.
  assert (Hr : r = Run (Fulfilled
                          (Array_sort byTime
                             (List.filter (λ x, num_ge (timeOf x) start)
                                ((toFundingRate "OKEx" market <$> data h) ++ [current]))))
                     (set_currents (set_pages w rest) rest')
                     [Get (OKExHistoricalFundingRate (market_id market));
                      Get (OKExFundingTime (market_id market))]).
  { unfold r, crawlOKExFundingRate, perform, perform_current,
      crawlOKExFundingRateHistory, crawlOKExFundingRateCurrent.
    rewrite Hswap. change (assert_str "Swap" "Swap") with (Ok tt). cbn [fetch].
    rewrite Hpages, Hh, assert_num_eq. cbn [mbind result_bind mret result_ret settled world
      events currents set_pages]. rewrite Hcurrents, Hc, assert_num_eq. done. }
  rewrite Hr. cbn [settled world events pages currents set_pages set_currents].
  split; [|done]. eexists. split; [done|].
  destruct (Array_sort_filter_ascending (λ x, num_ge (timeOf x) start)
              ((toFundingRate "OKEx" market <$> data h) ++ [current])) as [Hasc Hall].
  { intros x Hx. by apply num_ge_timeOf in Hx as [? _]. }
  split; [apply Array_sort_perm|]. split; [done|].
  rewrite Array_sort_perm, list_elem_of_In, List.filter_In, <- list_elem_of_In.
  split; [tauto|]. intros Hge. split; [|done]. apply elem_of_app. right. by left.
Qed.

Lemma okex_crawl_witness :
  let r := crawlOKExFundingRate okex_btc (Num 2000) okex_world in
  let current := toFundingRate "OKEx" okex_btc (sample_entry 4000) in
  (∃ out,
     settled r = Fulfilled out
     ∧ out ≡ₚ List.filter (λ x, num_ge (timeOf x) (Num 2000))
                ((toFundingRate "OKEx" okex_btc
                    <$> [sample_entry 1000; sample_entry 3000; sample_entry 2000])
                 ++ [current])
     ∧ ascending out
     ∧ (current ∈ out ↔ num_ge (timeOf current) (Num 2000) = true))
  ∧ pages (world r) = []
  ∧ currents (world r) = []
  ∧ events r = [Get (OKExHistoricalFundingRate (market_id okex_btc));
                Get (OKExFundingTime (market_id okex_btc))].
Proof.
  apply (okex_crawl okex_btc (Num 2000) okex_world
           (ok_response [sample_entry 1000; sample_entry 3000; sample_entry 2000])
           (ok_response (sample_entry 4000)) [] []); reflexivity.
Defined.

(** X12. When the OKEx history request is rejected or answered with a status
    other than 200, the crawl rejects with that error and the current-rate
    endpoint is never asked. *)
Theorem okex_history_failure (market : Market) (start : number) (w : World)
    (bad : axios_result (list entry)) (rest : list (axios_result (list entry)))
    (e : Error) :
  market_type market = "Swap" →
  pages w = bad :: rest →
  (bad = Reject e
   ∨ ∃ r, bad = Resolve r ∧ status r ≠ 200
          ∧ e = AssertionError (VNum (status r)) (VNum 200)) →
  let r := crawlOKExFundingRate market start w in
  settled r = Rejected e
  ∧ events r = [Get (OKExHistoricalFundingRate (market_id market))]
  ∧ pages (world r) = rest
  ∧ currents (world r) = currents w.
Proof.
  intros Hswap Hpages Hbad r.
  unfold r, crawlOKExFundingRate, perform, crawlOKExFundingRateHistory.
  rewrite Hswap. change (assert_str "Swap" "Swap") with (Ok tt). cbn [fetch].
  rewrite Hpages.
  destruct Hbad as [->|(r0 & -> & Hstatus & ->)]; [done|].
  by rewrite assert_num_ne.
Qed.

Lemma okex_history_failure_witness :
  let r := crawlOKExFundingRate okex_btc (Num 2000) okex_down_world in
  settled r = Rejected (RequestError "socket hang up")
  ∧ events r = [Get (OKExHistoricalFundingRate (market_id okex_btc))]
  ∧ pages (world r) = []
  ∧ currents (world r) = currents okex_down_world.
Proof.
  apply (okex_history_failure okex_btc (Num 2000) okex_down_world
           (Reject (RequestError "socket hang up")) []).
  - reflexivity.
  - reflexivity.
  - by left.
Defined.

(** ** Huobi: exhaustion is decided after the filter *)

(** X13. The Huobi loop stops at the first page of which fewer than 50
    records are later than [lastFundingTime], however many items the page
    itself has: the replies after it are left unread, so when a full page
    holds a known record, what later pages hold is not fetched. *)
Theorem huobi_stops_on_filtered_page (market : Market) (lastFundingTime : number)
    (w : World) (full : list (response (list entry))) (lastp : response (list entry))
    (rest : list (axios_result (list entry))) :
  market_type market = "Swap" →
  pages w = (Resolve <$> full) ++ Resolve lastp :: rest →
  Forall (λ r, status r = 200 ∧ data_status r = "ok"
               ∧ 50 ≤ Z.of_nat (length (huobiKept market lastFundingTime (data r)))) full →
  status lastp = 200 →
  data_status lastp = "ok" →
  Z.of_nat (length (huobiKept market lastFundingTime (data lastp))) < 50 →
  let r := crawlHuobiFundingRate market lastFundingTime w in
  (∃ out,
     settled r = Fulfilled out
     ∧ out ≡ₚ huobiKept market lastFundingTime (flat_map data (full ++ [lastp])))
  ∧ pages (world r) = rest
  ∧ length (events r) = S (length full).
Proof.
  intros Hswap Hpages Hfull Hstatus Hok Hshort r.
  unfold r, crawlHuobiFundingRate. rewrite Hpages.
  rewrite (crawlHuobiFundingRate_loop_pages_kept market lastFundingTime w lastp rest full)
    by done.
  cbn [settled world events pages set_pages app].
  split; [eexists; split; [done | apply Array_sort_perm]|].
  split; [done|]. by rewrite !length_fmap, length_seq.
Qed.

Lemma huobi_stops_on_filtered_page_witness :
  let r := crawlHuobiFundingRate huobi_btc (Num 1568102400000) huobi_world in
  (∃ out,
     settled r = Fulfilled out
     ∧ out ≡ₚ huobiKept huobi_btc (Num 1568102400000)
                (flat_map data ([] ++ [ok_response (sample_page 1568102400000 50)])))
  ∧ pages (world r) = [Resolve huobi_short]
  ∧ length (events r) = S (length (@nil (response (list entry)))).
Proof.
  apply (huobi_stops_on_filtered_page huobi_btc (Num 1568102400000) huobi_world
           [] (ok_response (sample_page 1568102400000 50)) [Resolve huobi_short]).
  - reflexivity.
  - reflexivity.
  - constructor.
  - reflexivity.
  - reflexivity.
  - vm_compute. reflexivity.
Defined.

(** ** The checkpoint file *)

Lemma existsSync_file (w : World) (p : string) (b : blob) :
  files w !! p = Some b → existsSync w p = true.
Proof.
  intros Hp. unfold existsSync. apply orb_true_iff. right.
  apply bool_decide_eq_true. eauto.
Qed.

Lemma files_ensureDir market w : files (ensureDir market w) = files w.
Proof. unfold ensureDir. by destruct (existsSync w _). Qed.

Lemma pages_ensureDir market w : pages (ensureDir market w) = pages w.
Proof. unfold ensureDir. by destruct (existsSync w _). Qed.

Lemma currents_ensureDir market w : currents (ensureDir market w) = currents w.
Proof. unfold ensureDir. by destruct (existsSync w _). Qed.

Lemma loadHistory_stored market w h :
  files w !! fundingRatesFile market = Some (JsonText h) →
  loadHistory market (ensureDir market w) = Ok h.
Proof.
  intros Hfile. rewrite <- files_ensureDir with (market := market) in Hfile.
  unfold loadHistory, parseFile. by rewrite (existsSync_file _ _ _ Hfile), Hfile.
Qed.

Lemma loadHistory_garbage market w text :
  files w !! fundingRatesFile market = Some (Garbage text) →
  loadHistory market (ensureDir market w) = Throw (SyntaxError text)
  ∧ checkFile market (ensureDir market w)
    = [ConsoleError (Text (fundingRatesFile market));
       ConsoleError (ErrorObject (SyntaxError text))].
Proof.
  intros Hfile. rewrite <- files_ensureDir with (market := market) in Hfile.
  unfold loadHistory, checkFile, parseFile.
  by rewrite (existsSync_file _ _ _ Hfile), Hfile.
Qed.

(** When the history loads, the first parse printed nothing. *)
Lemma checkFile_loaded market w h : loadHistory market w = Ok h → checkFile market w = [].
Proof.
  unfold loadHistory, checkFile.
  destruct (existsSync w _); [|done]. by intros ->.
Qed.

(** Whether a file can be written depends on the directories alone. *)
Lemma writable_dirs (w w' : World) (file : string) :
  dirs w' = dirs w → writable w' file = writable w file.
Proof. intros Hd. unfold writable, isDirectory. by rewrite Hd. Qed.


Lemma writeFileSync_throws (w : World) (file : string) (content : blob) (e : Error) :
  writeFileSync w file content = Throw e →
  writable w file = false ∧ ∃ code, e = SystemError code file.
Proof.
  unfold writeFileSync. destruct (writable w file); [done|].
  intros [= <-]. eauto.
Qed.

(** ** The retry loop *)

Lemma dirs_crawlFunc exch crawl market start w :
  crawlFunc exch = Ok crawl → dirs (world (crawl market start w)) = dirs w.
Proof.
  unfold crawlFunc. repeat (case_match; [intros [= <-]|]); [..|done].
  - destruct (crawlBinanceFundingRate_loop_world market w (pages w) start []) as [p Hp].
    unfold crawlBinanceFundingRate. by rewrite Hp.
  - destruct (crawlBitMEXFundingRate_loop_world market w (pages w) start []) as [p Hp].
    unfold crawlBitMEXFundingRate. by rewrite Hp.
  - destruct (crawlHuobiFundingRate_loop_world market start w (pages w) 1 []) as [p Hp].
    unfold crawlHuobiFundingRate. by rewrite Hp.
  - by destruct (crawlOKExFundingRate_frame market start w) as (_ & _ & ? & _).
Qed.




(** The retry loop leaves files and directories alone, whatever happens. *)
Lemma retry_frame exch crawl market start fuel :
  crawlFunc exch = Ok crawl →
  ∀ w, files (world (retry fuel crawl market start w)) = files w
       ∧ dirs (world (retry fuel crawl market start w)) = dirs w.
Proof.
  intros Hcrawl. induction fuel as [|fuel IH]; intros w; simpl; [done|].
  pose proof (files_crawlFunc exch crawl market start w Hcrawl) as Hf.
  pose proof (dirs_crawlFunc exch crawl market start w Hcrawl) as Hd.
  destruct (settled (crawl market start w)); simpl; [done| |done].
  destruct (IH (world (crawl market start w))) as [-> ->]. done.
Qed.

(** With no attempt left to look at, the supervisor is still retrying: there
    is no bound on the number of attempts. *)
Lemma retry_never_rejects fuel crawl market start w :
  ∀ e, settled (retry fuel crawl market start w) ≠ Rejected e.
Proof.
  revert w. induction fuel as [|fuel IH]; intros w e; simpl; [done|].
  destruct (settled (crawl market start w)) eqn:Hs; simpl; [done| |done].
  apply IH.
Qed.

(** The body of [crawlFundingRates] once the market is a swap market. *)
Lemma crawlFundingRates_swap fuel market w :
  market_type market = "Swap" →
  crawlFundingRates fuel market w
  = let w := ensureDir market w in
    let logged := checkFile market w in
    match loadHistory market w with
    | Throw e => Run (Rejected e) w logged
    | Ok fundingRatesHistory =>
        match startTime market fundingRatesHistory with
        | Throw e => Run (Rejected e) w logged
        | Ok start =>
            match crawlFunc (market_exchange market) with
            | Throw e => Run (Rejected e) w logged
            | Ok crawl =>
                let r := retry fuel crawl market start w in
                match settled r with
                | Fulfilled fundingRates =>
                    match writeFileSync (world r) (fundingRatesFile market)
                            (JSON_stringify (merge fundingRatesHistory fundingRates)) with
                    | Ok written => Run (Fulfilled tt) written (logged ++ events r)
                    | Throw e => Run (Rejected e) (world r) (logged ++ events r)
                    end
                | Rejected e => Run (Rejected e) (world r) (logged ++ events r)
                | Pending => Run Pending (world r) (logged ++ events r)
                end
            end
        end
    end.
Proof. intros Hswap. unfold crawlFundingRates. by rewrite Hswap. Qed.





(** ** A checkpoint that does not parse *)

Lemma crawlFundingRates_garbage fuel market w text :
  market_type market = "Swap" →
  files w !! fundingRatesFile market = Some (Garbage text) →
  crawlFundingRates fuel market w
  = Run (Rejected (SyntaxError text)) (ensureDir market w)
      [ConsoleError (Text (fundingRatesFile market));
       ConsoleError (ErrorObject (SyntaxError text))].
Proof.
  intros Hswap Hfile. rewrite crawlFundingRates_swap by done. cbv zeta.
  by destruct (loadHistory_garbage market w text Hfile) as [-> ->].
Qed.

(** C5 fails on the code. With a checkpoint that does not parse, the first
    parse (lines 265-272) prints the file name and the error, and the second
    parse (lines 273-275) throws: the promise of [crawlFundingRates] rejects
    with the [SyntaxError], no request is made and the file stays as it
    was. *)
Theorem unparsable_checkpoint_rejects :
  let r := crawlFundingRates 1 binance_btc garbage_world in
  settled r = Rejected (SyntaxError "[{")
  ∧ events r = [ConsoleError (Text "data/Binance/BTC_USDT.json");
                ConsoleError (ErrorObject (SyntaxError "[{"))]
  ∧ files (world r) = files garbage_world
  ∧ pages (world r) = pages garbage_world.
Proof.
  rewrite (crawlFundingRates_garbage 1 binance_btc garbage_world "[{") by reflexivity.
  cbn [settled events world]. rewrite files_ensureDir, pages_ensureDir. done.
Qed.

(** ** OKEx with a single stored record *)

(** C10. For an OKEx market whose stored sequence holds exactly one record,
    the index [length - 2] is -1, the array has nothing there, and reading
    [fundingTime] throws: [crawlFundingRates] rejects with the [TypeError]
    before any request, and leaves the file as it was. *)
Theorem startTime_OKEx_single_record_throws (fuel : nat) (market : Market) (w : World)
    (x : FundingRate) :
  market_type market = "Swap" →
  market_exchange market = "OKEx" →
  files w !! fundingRatesFile market = Some (JsonText [x]) →
  let r := crawlFundingRates fuel market w in
  Z.of_nat (length [x]) - 2 = -1
  ∧ Array_get [x] (-1) = None
  ∧ startTime market [x]
    = Throw (TypeError "Cannot read property 'fundingTime' of undefined")
  ∧ settled r = Rejected (TypeError "Cannot read property 'fundingTime' of undefined")
  ∧ events r = []
  ∧ files (world r) = files w.
Proof.
  intros Hswap Hokex Hfile r.
  assert (Hstart : startTime market [x]
                   = Throw (TypeError "Cannot read property 'fundingTime' of undefined")).
  { unfold startTime. by rewrite Hokex. }
  split; [done|]. split; [done|]. split; [done|].
  unfold r. rewrite crawlFundingRates_swap by done. cbv zeta.
  pose proof (loadHistory_stored market w [x] Hfile) as Hload.
  rewrite Hload, Hstart, (checkFile_loaded _ _ _ Hload).
  cbn [settled events world]. by rewrite files_ensureDir.
Qed.

Lemma startTime_OKEx_single_record_throws_witness :
  let r := crawlFundingRates 1 okex_btc okex_single_world in
  Z.of_nat (length [sample_record okex_btc 1568102400000]) - 2 = -1
  ∧ Array_get [sample_record okex_btc 1568102400000] (-1) = None
  ∧ startTime okex_btc [sample_record okex_btc 1568102400000]
    = Throw (TypeError "Cannot read property 'fundingTime' of undefined")
  ∧ settled r = Rejected (TypeError "Cannot read property 'fundingTime' of undefined")
  ∧ events r = []
  ∧ files (world r) = files okex_single_world.
Proof.
  apply (startTime_OKEx_single_record_throws 1 okex_btc okex_single_world
           (sample_record okex_btc 1568102400000)).
  - reflexivity.
  - reflexivity.
  - vm_compute. reflexivity.
Defined.

(** ** One market's run and the file store *)

(** X14. Whatever the outcome of a market's run, it changes no file but the
    market's own, and that one only when the run is fulfilled: either the run
    is fulfilled and the file store is the old one with the market's file
    replaced, or it is not fulfilled and the file store is the old one. *)
Theorem crawlFundingRates_files (fuel : nat) (market : Market) (w : World) :
  let r := crawlFundingRates fuel market w in
  (settled r = Fulfilled tt
   ∧ ∃ m, files (world r) = <[fundingRatesFile market := JsonText m]> (files w))
  ∨ (settled r ≠ Fulfilled tt ∧ files (world r) = files w).
Proof.
  unfold crawlFundingRates.
  destruct (assert_str _ _); [|by right]. cbv zeta.
  destruct (loadHistory _ _) as [history|e];
    [|right; split; [done | apply files_ensureDir]].
  destruct (startTime _ _) as [start|e];
    [|right; split; [done | apply files_ensureDir]].
  destruct (crawlFunc _) as [crawl|e] eqn:Hcrawl;
    [|right; split; [done | apply files_ensureDir]].
  destruct (retry_frame _ crawl market start fuel Hcrawl (ensureDir market w)) as [Hf _].
  rewrite files_ensureDir in Hf.
  destruct (settled (retry _ _ _ _ _)) as [fundingRates|e|]; simpl; [|by right..].
  unfold writeFileSync. destruct (writable _ _); simpl.
  - left. split; [done|]. eexists. by rewrite Hf.
  - by right.
Qed.

Lemma JSON_number_stored (x y : float) :
  JSON_number x = Some y → JSON_number y = Some y.
Proof.
  unfold JSON_number.
  destruct (PrimFloat.is_nan x || PrimFloat.is_infinity x) eqn:Hfin; [done|].
  destruct (PrimFloat.is_zero x) eqn:Hzero; intros [= <-]; [reflexivity|].
  by rewrite Hfin, Hzero.
Qed.

(** What was written and read back reads back as itself. *)
Lemma JSON_value_stored (x : FundingRate) : JSON_value (JSON_value x) = JSON_value x.
Proof.
  unfold JSON_value. simpl. f_equal.
  destruct (fundingRate x) as [rate|]; simpl; [|done].
  destruct (JSON_number rate) as [y|] eqn:Hy; simpl; [|done].
  by apply JSON_number_stored in Hy.
Qed.

Lemma strictly_ascending_JSON (l : list FundingRate) :
  strictly_ascending l → strictly_ascending (JSON_value <$> l).
Proof. unfold strictly_ascending. by apply StronglySorted_fmap. Qed.

Lemma merge_strictly_ascending (h f : list FundingRate) :
  strictly_ascending (merge h f).
Proof.
  pose proof (merge_sorted h f) as Hs. pose proof (merge_NoDup h f) as Hnd.
  unfold strictly_ascending.
  induction Hs as [|x l _ IH Hx]; [constructor|].
  rewrite fmap_cons in Hnd. apply NoDup_cons in Hnd as [Hnx Hnd].
  constructor; [by apply IH|].
  apply Forall_forall. intros y Hy. rewrite Forall_forall in Hx.
  specialize (Hx y Hy). simpl in Hx.
  assert (fundingTime y ≠ fundingTime x); [|lia].
  intros Heq. apply Hnx. rewrite <- Heq. apply list_elem_of_fmap. eauto.
Qed.

(** X15. After a fulfilled run the market's file holds a sequence whose
    times strictly increase (sorted, no duplicate) and which is in stored
    form: no rate in it is NaN, infinite or -0 (such rates were written as
    [null] or [0]), so that writing the sequence again and reading it back
    gives the same sequence. *)
Theorem crawlFundingRates_persists_invariant (fuel : nat) (market : Market) (w : World) :
  let r := crawlFundingRates fuel market w in
  settled r = Fulfilled tt →
  ∃ m,
    files (world r) !! fundingRatesFile market = Some (JsonText m)
    ∧ strictly_ascending m
    ∧ JSON_stringify m = JsonText m
    ∧ ∀ x rate, x ∈ m → fundingRate x = Some rate →
        PrimFloat.is_nan rate = false ∧ PrimFloat.is_infinity rate = false
        ∧ rate ≠ PrimFloat.neg_zero.
Proof.
  unfold crawlFundingRates.
  destruct (assert_str _ _); [|done]. cbv zeta.
  destruct (loadHistory _ _) as [history|e]; [|done].
  destruct (startTime _ _) as [start|e]; [|done].
  destruct (crawlFunc _) as [crawl|e]; [|done].
  destruct (settled (retry _ _ _ _ _)) as [fundingRates|e|]; simpl; [|done..].
  unfold writeFileSync. destruct (writable _ _); simpl; [|done].
  intros _. exists (JSON_value <$> merge history fundingRates).
  split; [apply lookup_insert_eq|].
  split; [apply strictly_ascending_JSON, merge_strictly_ascending|].
  split.
  - unfold JSON_stringify. f_equal. rewrite <- list_fmap_compose.
    apply list_fmap_ext. intros i x _. apply JSON_value_stored.
  - intros x rate (y & -> & _)%list_elem_of_fmap Hrate. simpl in Hrate.
    destruct (fundingRate y) as [raw|]; simpl in Hrate; [|done].
    unfold JSON_number in Hrate.
    destruct (PrimFloat.is_nan raw || PrimFloat.is_infinity raw) eqn:Hfin; [done|].
    apply orb_false_iff in Hfin as [Hnan Hinf].
    destruct (PrimFloat.is_zero raw) eqn:Hzero; injection Hrate as <-.
    + repeat split; [reflexivity..|]. by vm_compute.
    + repeat split; [done..|]. intros ->. by vm_compute in Hzero.
Qed.

Lemma crawlFundingRates_persists_invariant_witness :
  let r := crawlFundingRates 3 binance_btc retry_world in
  ∃ m,
    files (world r) !! fundingRatesFile binance_btc = Some (JsonText m)
    ∧ strictly_ascending m
    ∧ JSON_stringify m = JsonText m
    ∧ ∀ x rate, x ∈ m → fundingRate x = Some rate →
        PrimFloat.is_nan rate = false ∧ PrimFloat.is_infinity rate = false
        ∧ rate ≠ PrimFloat.neg_zero.
Proof.
  apply (crawlFundingRates_persists_invariant 3 binance_btc retry_world).
  vm_compute. reflexivity.
Defined.

Lemma is_ConsoleError_checkFile market w : Forall is_ConsoleError (checkFile market w).
Proof.
  unfold checkFile. destruct (existsSync _ _); [|constructor].
  destruct (parseFile _ _); repeat constructor; eexists; reflexivity.
Qed.

(** X16. A market's run rejects in two places only, and never changes a
    file when it does: before it fetches anything (no scripted reply has been
    consumed and the events are console lines only), or, after a crawl that
    succeeded, at the final write, with the error of [fs.writeFileSync] on
    the market's file, which then cannot be written. An error of a crawl
    attempt never rejects it. *)
Theorem crawlFundingRates_rejection (fuel : nat) (market : Market) (w : World) (e : Error) :
  let r := crawlFundingRates fuel market w in
  settled r = Rejected e →
  files (world r) = files w
  ∧ ((pages (world r) = pages w
      ∧ currents (world r) = currents w
      ∧ Forall is_ConsoleError (events r))
     ∨ (writable (ensureDir market w) (fundingRatesFile market) = false
        ∧ ∃ code, e = SystemError code (fundingRatesFile market))).
Proof.
  pose proof (is_ConsoleError_checkFile market (ensureDir market w)) as Hlog.
  assert (Hbefore : ∀ evs, Forall is_ConsoleError evs →
    files (ensureDir market w) = files w
    ∧ ((pages (ensureDir market w) = pages w
        ∧ currents (ensureDir market w) = currents w
        ∧ Forall is_ConsoleError evs)
       ∨ (writable (ensureDir market w) (fundingRatesFile market) = false
          ∧ ∃ code, e = SystemError code (fundingRatesFile market)))).
  { intros evs Hevs. split; [apply files_ensureDir|]. left.
    by rewrite pages_ensureDir, currents_ensureDir. }
  unfold crawlFundingRates.
  destruct (assert_str _ _); [|intros _; split; [done|]; left; repeat split; constructor].
  cbv zeta.
  destruct (loadHistory _ _) as [history|e0]; [|intros _; by apply Hbefore].
  destruct (startTime _ _) as [start|e0]; [|intros _; by apply Hbefore].
  destruct (crawlFunc _) as [crawl|e0] eqn:Hcrawl; [|intros _; by apply Hbefore].
  pose proof (retry_never_rejects fuel crawl market start (ensureDir market w)) as Hnever.
  destruct (retry_frame _ crawl market start fuel Hcrawl (ensureDir market w)) as [Hf Hd].
  rewrite files_ensureDir in Hf.
  destruct (settled (retry _ _ _ _ _)) as [fundingRates|e0|]; simpl;
    [|by destruct (Hnever e0) | done].
  destruct (writeFileSync _ _ _) as [written|e0] eqn:Hwrite; simpl; [done|].
  intros [= ->]. split; [done|]. right.
  apply writeFileSync_throws in Hwrite as [Hw Hcode].
  split; [|done]. rewrite <- Hw. symmetry. by apply writable_dirs.
Qed.

Lemma crawlFundingRates_rejection_witness :
  let r := crawlFundingRates 1 binance_slash first_world in
  files (world r) = files first_world
  ∧ ((pages (world r) = pages first_world
      ∧ currents (world r) = currents first_world
      ∧ Forall is_ConsoleError (events r))
     ∨ (writable (ensureDir binance_slash first_world) (fundingRatesFile binance_slash)
        = false
        ∧ ∃ code, SystemError "ENOENT" "data/Binance/BTC/USDT.json"
                  = SystemError code (fundingRatesFile binance_slash))).
Proof.
  apply (crawlFundingRates_rejection 1 binance_slash first_world
           (SystemError "ENOENT" "data/Binance/BTC/USDT.json")).
  vm_compute. reflexivity.
Defined.



(** ** An exchange without a crawler *)



(** ** The first run of a market *)



(** ** A resume timestamp that BitMEX cannot be asked for *)

Lemma crawlBitMEXFundingRate_invalid_start market start w e :
  market_type market = "Swap" →
  Date_toISOString start = Throw e →
  crawlBitMEXFundingRate market start w = Run (Rejected e) w [].
Proof.
  intros Hswap Hiso. unfold crawlBitMEXFundingRate.
  destruct (pages w) as [|reply script] eqn:Hp; simpl;
    unfold crawlBitMEXFundingRateOneshot; rewrite Hswap;
    change (assert_str "Swap" "Swap") with (Ok tt);
    change (Ok tt ≫= λ _ : (), Date_toISOString start) with (Date_toISOString start);
    rewrite Hiso; by rewrite <- Hp, set_pages_same.
Qed.

(** A crawl that rejects without touching the world is retried as often as
    attempts are looked at. *)
Lemma retry_rejecting crawl market start w e :
  crawl market start w = Run (Rejected e) w [] →
  ∀ fuel,
    retry fuel crawl market start w
    = Run Pending w (List.concat (replicate fuel (failure_report market e))).
Proof.
  intros Hrej. induction fuel as [|fuel IH]; simpl; [done|].
  rewrite Hrej. cbn [settled world events]. rewrite IH. done.
Qed.

Lemma Date_toISOString_late (t : Z) :
  MAX_TIME - 1000 < t ∨ t < - MAX_TIME →
  Date_toISOString (num_add (Date_getTime (Num t)) (Num 1000))
  = Throw (RangeError "Invalid time value").
Proof.
  intros Ht. unfold Date_toISOString, Date_getTime, TimeClip.
  case_bool_decide as H1; simpl; [|done].
  rewrite bool_decide_false; [done|]. unfold MAX_TIME in *. lia.
Qed.

(** X19. For a BitMEX market whose last stored record is later than the
    largest date minus one second (or earlier than the smallest date), the
    resume timestamp is no valid date, every attempt throws a [RangeError]
    before any request, and the run never ends: however many attempts are
    looked at, the promise is pending, each attempt has printed the market
    and the error and set the 5000 ms timer, no reply was consumed and no
    file changed. *)
Theorem bitmex_invalid_resume_never_ends (fuel : nat) (market : Market) (w : World)
    (h : list FundingRate) (x : FundingRate) :
  market_type market = "Swap" →
  market_exchange market = "BitMEX" →
  files w !! fundingRatesFile market = Some (JsonText h) →
  last h = Some x →
  MAX_TIME - 1000 < fundingTime x ∨ fundingTime x < - MAX_TIME →
  let r := crawlFundingRates fuel market w in
  settled r = Pending
  ∧ files (world r) = files w
  ∧ pages (world r) = pages w
  ∧ events r
    = List.concat
        (replicate fuel
           [ConsoleError (Text (market_exchange market +:+ "-" +:+ market_pair market));
            ConsoleError (MessageOf (RangeError "Invalid time value"));
            SetTimeout 5000]).
Proof.
  intros Hswap Hex Hfile Hlast Hlate r. unfold r.
  rewrite crawlFundingRates_swap by done. cbv zeta.
  pose proof (loadHistory_stored market w h Hfile) as Hload.
  rewrite Hload, (checkFile_loaded _ _ _ Hload).
  rewrite (startTime_last market h x) by (rewrite ?Hex; done).
  rewrite Hex. change (crawlFunc "BitMEX") with (Ok crawlBitMEXFundingRate).
  cbv beta iota.
  rewrite (retry_rejecting crawlBitMEXFundingRate market _ (ensureDir market w)
             (RangeError "Invalid time value")).
  2:{ apply crawlBitMEXFundingRate_invalid_start; [done|].
      by apply Date_toISOString_late. }
  cbn [settled world events app]. rewrite files_ensureDir, pages_ensureDir.
  unfold failure_report. rewrite ?Hex. done.
Qed.

Lemma bitmex_invalid_resume_never_ends_witness :
  let r := crawlFundingRates 4 bitmex_btc bitmex_late_world in
  settled r = Pending
  ∧ files (world r) = files bitmex_late_world
  ∧ pages (world r) = pages bitmex_late_world
  ∧ events r
    = List.concat
        (replicate 4
           [ConsoleError (Text (market_exchange bitmex_btc +:+ "-"
                                  +:+ market_pair bitmex_btc));
            ConsoleError (MessageOf (RangeError "Invalid time value"));
            SetTimeout 5000]).
Proof.
  apply (bitmex_invalid_resume_never_ends 4 bitmex_btc bitmex_late_world
           [sample_record bitmex_btc MAX_TIME] (sample_record bitmex_btc MAX_TIME)).
  - reflexivity.
  - reflexivity.
  - reflexivity.
  - reflexivity.
  - left. vm_compute. reflexivity.
Defined.
